(** * SPECT collimator simulation: transport kernel and metrics engine

    A shallow embedding of [python-simulation/spect-simulation.py]:
    the [CollimatorParams] / [MaterialProperties] records, the material
    registry [MATERIALS], the Monte Carlo loop
    [SPECTSimulator.simulate_photon_transport] and the metrics of
    [SPECTSimulator.calculate_metrics].

    Conventions of the model.
    - Python [float] and [numpy.float64] values are real numbers ([R]);
      rounding, infinities and NaN are outside the model.  [numpy]'s
      [sin], [cos], [tan], [arctan], [exp] and [sqrt] are the functions of
      the same name of the real-number library.
    - Python [int] values are [Z].
    - [numpy.random]'s hidden global generator is an explicit state that is
      threaded through every draw.
    - A Python exception is a value of [exception]; fallible code returns
      [Exc A]. *)

From Stdlib Require Import Reals Lra Lia ZArith List String Bool.
From Stdlib Require Import Sorted.
Import ListNotations.

Open Scope R_scope.

(** ** Exceptions *)

Inductive exception : Type :=
| KeyError (key : string)
| ZeroDivisionError.

Definition Exc (A : Type) : Type := (exception + A)%type.

Definition ret {A : Type} (a : A) : Exc A := inr a.

Definition raise {A : Type} (e : exception) : Exc A := inl e.

Definition bind {A B : Type} (m : Exc A) (k : A -> Exc B) : Exc B :=
  match m with
  | inl e => inl e
  | inr a => k a
  end.

Notation "x <- m ;; k" := (bind m (fun x => k))
  (at level 61, m at next level, right associativity).
Notation "' pat <- m ;; k" := (bind m (fun x => match x with pat => k end))
  (at level 61, pat pattern, m at next level, right associativity).

(** ** Python arithmetic *)

(** [a / b] on Python floats: a zero divisor raises. *)
Definition pydiv (a b : R) : Exc R :=
  if Req_dec_T b 0 then raise ZeroDivisionError else ret (a / b).

(** [int(r)]: truncation towards zero. *)
Definition pyint (r : R) : Z :=
  if Rle_dec 0 r then Int_part r else (- Int_part (- r))%Z.

(** [d[k]] on a dict with string keys, kept as an association list in
    insertion order. *)
Fixpoint dict_get {V : Type} (d : list (string * V)) (k : string) : option V :=
  match d with
  | [] => None
  | (k', v) :: d' => if String.eqb k' k then Some v else dict_get d' k
  end.

(** ** Data model *)

Record CollimatorParams : Type := Build_CollimatorParams {
  hole_diameter : R;
  hole_length : R;
  septal_thickness : R;
  material : string;
  num_holes_x : Z;
  num_holes_y : Z
}.

Record MaterialProperties : Type := Build_MaterialProperties {
  density : R;
  attenuation_coefficient : R;
  name : string
}.

Definition MATERIALS : list (string * MaterialProperties) :=
  [ ("lead"%string, Build_MaterialProperties 11.34 23.0 "Lead");
    ("tungsten"%string, Build_MaterialProperties 19.25 18.0 "Tungsten");
    ("brass"%string, Build_MaterialProperties 8.5 8.0 "Brass") ].

(** The dataclass constructor with the two defaulted fields. *)
Definition CollimatorParams_new (d l s : R) (m : string) : CollimatorParams :=
  Build_CollimatorParams d l s m 100 100.

Record SPECTSimulator : Type := Build_SPECTSimulator {
  self_params : CollimatorParams;
  self_material : MaterialProperties
}.

(** [SPECTSimulator.__init__]. *)
Definition SPECTSimulator_init (params : CollimatorParams) : Exc SPECTSimulator :=
  match dict_get MATERIALS (material params) with
  | Some m => ret (Build_SPECTSimulator params m)
  | None => raise (KeyError (material params))
  end.

(** One entry of [detected_photons]. *)
Record Photon : Type := Build_Photon {
  x : R;
  y : R;
  energy : R
}.

(** The dict returned by [simulate_photon_transport]. *)
Record SimulationResult : Type := Build_SimulationResult {
  detected_photons : list Photon;
  total_photons : Z;
  detected_count : Z;
  septal_penetration : Z;
  geometric_rejection : Z
}.

(** How one iteration of the loop ends. *)
Inductive outcome : Type :=
| GeometricRejection
| SeptalAbsorption
| Detected (p : Photon).

(** The three accumulators of the loop. *)
Record accumulators : Type := Build_accumulators {
  acc_detected_photons : list Photon;
  acc_septal_penetration_count : Z;
  acc_geometric_rejection_count : Z
}.

Definition acc_init : accumulators := Build_accumulators [] 0 0.

Definition record_outcome (acc : accumulators) (o : outcome) : accumulators :=
  match o with
  | GeometricRejection =>
      Build_accumulators (acc_detected_photons acc)
                         (acc_septal_penetration_count acc)
                         (acc_geometric_rejection_count acc + 1)
  | SeptalAbsorption =>
      Build_accumulators (acc_detected_photons acc)
                         (acc_septal_penetration_count acc + 1)
                         (acc_geometric_rejection_count acc)
  | Detected p =>
      Build_accumulators (acc_detected_photons acc ++ [p])
                         (acc_septal_penetration_count acc)
                         (acc_geometric_rejection_count acc)
  end.

(** ** Transport kernel *)

(** [SPECTSimulator._calculate_septal_path]. *)
Definition _calculate_septal_path (self : SPECTSimulator) (theta phi : R) : R :=
  if Rlt_dec (Rabs theta) 1e-6 then 0.0
  else septal_thickness (self_params self) * Rabs (tan theta).

Section Transport.

(** The random generator: its state and its two primitive draws,
    [random_sample] in [0,1) and a standard normal deviate. *)
Variable rng : Type.
Variable random_sample : rng -> R * rng.
Variable standard_normal : rng -> R * rng.

(** [np.random.random()]. *)
Definition np_random_random (g : rng) : R * rng := random_sample g.

(** [np.random.uniform(low, high)]. *)
Definition np_random_uniform (low high : R) (g : rng) : R * rng :=
  let '(u, g') := random_sample g in (low + (high - low) * u, g').

(** [np.random.normal(loc, scale)]. *)
Definition np_random_normal (loc scale : R) (g : rng) : R * rng :=
  let '(z, g') := standard_normal g in (loc + scale * z, g').

Definition detector_width (self : SPECTSimulator) : R :=
  IZR (num_holes_x (self_params self))
  * (hole_diameter (self_params self) + septal_thickness (self_params self)).

Definition detector_height (self : SPECTSimulator) : R :=
  IZR (num_holes_y (self_params self))
  * (hole_diameter (self_params self) + septal_thickness (self_params self)).

(** The four draws that open an iteration: [theta], [phi], [x0], [y0]. *)
Definition sample_photon (self : SPECTSimulator) (g : rng) : (R * R * R * R) * rng :=
  let '(theta, g1) := np_random_uniform (- PI / 6) (PI / 6) g in
  let '(phi, g2) := np_random_uniform 0 (2 * PI) g1 in
  let '(x0, g3) := np_random_uniform (- detector_width self / 2) (detector_width self / 2) g2 in
  let '(y0, g4) := np_random_uniform (- detector_height self / 2) (detector_height self / 2) g3 in
  (theta, phi, x0, y0, g4).

(** The rest of the iteration, from the direction cosines to the append.
    The hole indices are computed and never read, but their divisions are
    Python float divisions (the dimensions are declared [float], the
    uniform draws are Python floats) and raise on a zero divisor, as does
    the quotient under [arctan].  [path_length], which is assigned and
    never read and cannot raise, is left out.  The divisions by [dz] are
    [numpy] divisions of the direction cosines and do not raise. *)
Definition trace_photon (self : SPECTSimulator) (theta phi x0 y0 : R) (g : rng)
  : Exc (outcome * rng) :=
  let p := self_params self in
  let dx := sin theta * cos phi in
  let dy := sin theta * sin phi in
  let dz := cos theta in
  qx <- pydiv (x0 + detector_width self / 2) (hole_diameter p + septal_thickness p) ;;
  let hole_x_idx := pyint qx in
  qy <- pydiv (y0 + detector_height self / 2) (hole_diameter p + septal_thickness p) ;;
  let hole_y_idx := pyint qy in
  q <- pydiv (hole_diameter p) (2 * hole_length p) ;;
  let acceptance_angle := atan q in
  if Rgt_dec (Rabs theta) acceptance_angle then ret (GeometricRejection, g)
  else
    let septal_path_length := _calculate_septal_path self theta phi in
    let attenuation_prob :=
      exp (- attenuation_coefficient (self_material self) * septal_path_length / 10) in
    let '(u, g1) := np_random_random g in
    if Rgt_dec u attenuation_prob then ret (SeptalAbsorption, g1)
    else
      let x_final := x0 + dx * hole_length p / dz in
      let y_final := y0 + dy * hole_length p / dz in
      let '(e, g2) := np_random_normal 140 (140 * 0.1 / 2.355) g1 in
      ret (Detected (Build_Photon x_final y_final e), g2).

(** The photon that [trace_photon] records from generator state [g] when it
    detects: position from the direction cosines, energy from the normal
    draw that follows the uniform draw. *)
Definition detected_photon (self : SPECTSimulator) (theta phi x0 y0 : R) (g : rng)
  : Photon :=
  Build_Photon
    (x0 + sin theta * cos phi * hole_length (self_params self) / cos theta)
    (y0 + sin theta * sin phi * hole_length (self_params self) / cos theta)
    (140 + 140 * 0.1 / 2.355 * fst (standard_normal (snd (random_sample g)))).

(** One iteration of the loop. *)
Definition photon_trial (self : SPECTSimulator) (g : rng) : Exc (outcome * rng) :=
  let '(theta, phi, x0, y0, g') := sample_photon self g in
  trace_photon self theta phi x0 y0 g'.

(** [for _ in range(n)]. *)
Fixpoint run_trials (self : SPECTSimulator) (n : nat) (acc : accumulators) (g : rng)
  : Exc (accumulators * rng) :=
  match n with
  | O => ret (acc, g)
  | S n' =>
      '(o, g') <- photon_trial self g ;;
      run_trials self n' (record_outcome acc o) g'
  end.

(** [SPECTSimulator.simulate_photon_transport]; [range] of a negative
    count is empty. *)
Definition simulate_photon_transport (self : SPECTSimulator)
    (num_photons : Z) (source_distance : R) (g : rng)
  : Exc (SimulationResult * rng) :=
  '(acc, g') <- run_trials self (Z.to_nat num_photons) acc_init g ;;
  ret (Build_SimulationResult
         (acc_detected_photons acc)
         num_photons
         (Z.of_nat (List.length (acc_detected_photons acc)))
         (acc_septal_penetration_count acc)
         (acc_geometric_rejection_count acc),
       g').

End Transport.

(** ** Metrics engine *)

(** [a / b] on Python ints (true division). *)
Definition pytruediv (a b : Z) : Exc R :=
  if (b =? 0)%Z then raise ZeroDivisionError else ret (IZR a / IZR b).

(** [max(a, b)]: the first argument unless the second is greater. *)
Definition pymax (a b : R) : R := if Rgt_dec b a then b else a.

Definition np_sum (a : list R) : R := fold_right Rplus 0 a.

(** [np.mean(a)]. *)
Definition np_mean (a : list R) : R := np_sum a / INR (List.length a).

(** [np.std(a)]: the population standard deviation. *)
Definition np_std (a : list R) : R :=
  sqrt (np_mean (map (fun v => Rsqr (Rabs (v - np_mean a))) a)).

(** [SPECTSimulator._calculate_fwhm]. *)
Definition _calculate_fwhm (self : SPECTSimulator) (positions : list R) : R :=
  if (List.length positions <? 10)%nat then 0.0
  else
    let std_dev := np_std positions in
    let fwhm := 2.355 * std_dev in
    fwhm.

(** *** [np.histogram2d] with an integer number of bins

    The outer edges of an axis are the smallest and the largest sample
    (0 and 1 without samples), moved apart by one half each when they
    coincide; the [bins + 1] edges are evenly spaced between them; a
    sample's bin number is the number of edges not above it, less one for a
    sample on the last edge; the returned counts are those of the bin
    numbers [1 .. bins] in each axis. *)

Definition _get_outer_edges (a : list R) : R * R :=
  match a with
  | [] => (0, 1)
  | v :: a' =>
      let first_edge := fold_left Rmin a' v in
      let last_edge := fold_left Rmax a' v in
      if Req_dec_T first_edge last_edge
      then (first_edge - 0.5, last_edge + 0.5)
      else (first_edge, last_edge)
  end.

(** [np.linspace(start, stop, num)] with the end point included. *)
Definition np_linspace (start stop : R) (num : nat) : list R :=
  match num with
  | O => []
  | S O => [start]
  | S div =>
      let step := (stop - start) / INR div in
      map (fun k => INR k * step + start) (seq 0 div) ++ [stop]
  end.

(** [np.searchsorted(a, v, side='right')] on a sorted [a]. *)
Definition np_searchsorted_right (a : list R) (v : R) : nat :=
  List.length (filter (fun e => if Rle_dec e v then true else false) a).

Definition bin_number (edges : list R) (v : R) : nat :=
  let n := np_searchsorted_right edges v in
  if Req_dec_T v (last edges 0) then (n - 1)%nat else n.

Definition axis_edges (a : list R) (bins : nat) : list R :=
  let '(smin, smax) := _get_outer_edges a in np_linspace smin smax (bins + 1).

(** Samples whose pair of bin numbers is [(i, j)]. *)
Definition bincount2 (numbers : list (nat * nat)) (i j : nat) : nat :=
  List.length (filter (fun ij => ((fst ij =? i) && (snd ij =? j))%nat) numbers).

Definition np_histogram2d (xs ys : list R) (bins : nat) : list (list R) :=
  let Ncount :=
    combine (map (bin_number (axis_edges xs bins)) xs)
            (map (bin_number (axis_edges ys bins)) ys) in
  map (fun i => map (fun j => INR (bincount2 Ncount i j)) (seq 1 bins)) (seq 1 bins).

(** [SPECTSimulator._calculate_uniformity]; [np.mean] and [np.std] of a
    matrix run over all its cells. *)
Definition _calculate_uniformity (self : SPECTSimulator) (photons : list Photon)
    (grid_size : nat) : R :=
  if (List.length photons <? 10)%nat then 0.0
  else
    let xs := map x photons in
    let ys := map y photons in
    let hist := np_histogram2d xs ys grid_size in
    let mean_counts := np_mean (List.concat hist) in
    let std_counts := np_std (List.concat hist) in
    if Rgt_dec mean_counts 0 then
      let uniformity := (1 - std_counts / mean_counts) * 100 in
      pymax 0 uniformity
    else 0.0.

(** The dict returned by [calculate_metrics]. *)
Definition Metrics : Type := list (string * R).

(** [SPECTSimulator.calculate_metrics]. *)
Definition calculate_metrics (self : SPECTSimulator) (simulation_results : SimulationResult)
  : Exc Metrics :=
  let photons := detected_photons simulation_results in
  let total := total_photons simulation_results in
  if (List.length photons =? 0)%nat then
    ret [ ("sensitivity"%string, 0.0);
          ("spatial_resolution_fwhm"%string, 0.0);
          ("uniformity"%string, 0.0);
          ("contrast_to_noise"%string, 0.0) ]
  else
    q <- pytruediv (Z.of_nat (List.length photons)) total ;;
    let sensitivity := q * 100 in
    let x_positions := map x photons in
    let spatial_resolution := _calculate_fwhm self x_positions in
    let uniformity := _calculate_uniformity self photons 10 in
    let cnr := if (0 <? List.length photons)%nat
               then sqrt (INR (List.length photons)) else 0 in
    qs <- pytruediv (septal_penetration simulation_results) total ;;
    qg <- pytruediv (total - geometric_rejection simulation_results) total ;;
    ret [ ("sensitivity"%string, sensitivity);
          ("spatial_resolution_fwhm"%string, spatial_resolution);
          ("uniformity"%string, uniformity);
          ("contrast_to_noise"%string, cnr);
          ("septal_penetration_fraction"%string, qs * 100);
          ("geometric_efficiency"%string, qg * 100) ].

(** The dataclass-generated [CollimatorParams.__init__]: it stores its
    arguments and has no [__post_init__], so it never raises. *)
Definition CollimatorParams_init (hole_diameter hole_length septal_thickness : R)
    (material : string) (num_holes_x num_holes_y : Z) : Exc CollimatorParams :=
  ret (Build_CollimatorParams hole_diameter hole_length septal_thickness
                              material num_holes_x num_holes_y).

(** ** Preconditions of the specification *)

(** A valid geometry: positive hole diameter and length, non-negative
    septal thickness, positive hole counts. *)
Definition valid_geometry (p : CollimatorParams) : Prop :=
  0 < hole_diameter p /\ 0 < hole_length p /\ 0 <= septal_thickness p
  /\ (0 < num_holes_x p)%Z /\ (0 < num_holes_y p)%Z.

(** Trials accounted for by the accumulators. *)
Definition accounted (acc : accumulators) : Z :=
  (Z.of_nat (List.length (acc_detected_photons acc))
   + acc_septal_penetration_count acc
   + acc_geometric_rejection_count acc)%Z.

(** What [simulate_photon_transport] guarantees of its result: the
    detected count is the number of recorded photons, the two loss counters
    are non-negative and the three outcomes add up to the total. *)
Definition well_formed_result (r : SimulationResult) : Prop :=
  detected_count r = Z.of_nat (List.length (detected_photons r))
  /\ (0 <= septal_penetration r)%Z
  /\ (0 <= geometric_rejection r)%Z
  /\ (detected_count r + septal_penetration r + geometric_rejection r
      = total_photons r)%Z.

(** The result of a run without photons. *)
Definition empty_result : SimulationResult := Build_SimulationResult [] 0 0 0 0.

(** The dict of the early return of [calculate_metrics]. *)
Definition no_counts_metrics : Metrics :=
  [ ("sensitivity"%string, 0.0);
    ("spatial_resolution_fwhm"%string, 0.0);
    ("uniformity"%string, 0.0);
    ("contrast_to_noise"%string, 0.0) ].

Definition known_materials : list string :=
  [ "lead"%string; "tungsten"%string; "brass"%string ].

(** Ten detected photons on the diagonal of the detector, and a result
    that records them next to one absorbed and one rejected photon. *)
Definition diagonal_photons : list Photon :=
  map (fun k => Build_Photon (IZR k) (IZR k) 140) [0; 1; 2; 3; 4; 5; 6; 7; 8; 9]%Z.

Definition diagonal_result : SimulationResult :=
  Build_SimulationResult diagonal_photons 12 10 1 1.

(** ** A scripted generator

    A generator that replays a tape of integers: a uniform draw is the
    entry reduced modulo 10^9 and scaled to [0,1), a normal draw is the
    entry in thousandths.  An exhausted tape keeps returning 0. *)
Module TapeRng.

Definition rng : Type := list Z.

Definition unit_of (z : Z) : R := IZR (z mod 1000000000) / 1000000000.

Definition random_sample (t : rng) : R * rng :=
  match t with
  | [] => (0, [])
  | z :: t' => (unit_of z, t')
  end.

Definition standard_normal (t : rng) : R * rng :=
  match t with
  | [] => (0, [])
  | z :: t' => (IZR z / 1000, t')
  end.

End TapeRng.

(** The configuration of [main]: 1.5 mm holes, 25 mm long, 0.2 mm lead septa. *)
Definition main_params : CollimatorParams := CollimatorParams_new 1.5 25.0 0.2 "lead".

Definition main_simulator : SPECTSimulator :=
  Build_SPECTSimulator main_params (Build_MaterialProperties 11.34 23.0 "Lead").

(** A tape whose first iteration samples [theta = 0] at the centre of the
    detector, then draws 0 for the survival test and 0 for the energy. *)
Definition on_axis_tape : TapeRng.rng :=
  [500000000; 0; 500000000; 500000000; 0; 0]%Z.

(** A tape whose next uniform draw is 0.999999999. *)
Definition near_one_tape : TapeRng.rng := [999999999]%Z.

(** ** Parameter sweeps *)

(** [d[k]] as an expression: a missing key raises [KeyError]. *)
Definition getitem {V : Type} (d : list (string * V)) (k : string) : Exc V :=
  match dict_get d k with
  | Some v => ret v
  | None => raise (KeyError k)
  end.

(** One entry of the list returned by [optimize_collimator]. *)
Record OptimizeRow : Type := Build_OptimizeRow {
  opt_hole_diameter : R;
  opt_hole_length : R;
  opt_sensitivity : R;
  opt_spatial_resolution : R;
  opt_uniformity : R
}.

(** One row of the data frame built by [parameter_sweep_analysis].  The
    figure of merit is [None] when it is not a number of the model (the
    infinity or NaN of a [numpy] division by zero). *)
Record SweepRow : Type := Build_SweepRow {
  row_material : string;
  row_hole_diameter : R;
  row_hole_length : R;
  row_sensitivity : R;
  row_resolution : R;
  row_uniformity : R;
  row_septal_penetration : R;
  row_figure_of_merit : option R
}.

(** Division of [numpy] floats: it never raises. *)
Definition np_divide (a b : R) : option R :=
  if Req_dec_T b 0 then None else Some (a / b).

(** The dict literal of the loop body of [parameter_sweep_analysis], built
    from the metrics of one run.  Its last entry divides by
    [metrics['spatial_resolution_fwhm']]: below ten detected photons that is
    the Python float [0.0] returned by [_calculate_fwhm] or by the early
    return, under a Python float numerator, so the division is Python's;
    from ten photons on it is a [numpy] float and the division is
    [numpy]'s. *)
Definition sweep_row (material : string) (diameter length : R)
    (simulator : SPECTSimulator) (sim_results : SimulationResult) : Exc SweepRow :=
  metrics <- calculate_metrics simulator sim_results ;;
  sensitivity <- getitem metrics "sensitivity" ;;
  resolution <- getitem metrics "spatial_resolution_fwhm" ;;
  uniformity <- getitem metrics "uniformity" ;;
  septal_penetration <- getitem metrics "septal_penetration_fraction" ;;
  s <- getitem metrics "sensitivity" ;;
  u <- getitem metrics "uniformity" ;;
  f <- getitem metrics "spatial_resolution_fwhm" ;;
  figure_of_merit <-
    (if (List.length (detected_photons sim_results) <? 10)%nat
     then q <- pydiv (s * u) f ;; ret (Some q)
     else ret (np_divide (s * u) f)) ;;
  ret (Build_SweepRow material diameter length sensitivity resolution uniformity
                      septal_penetration figure_of_merit).

(** [df[df['material'] == 'lead']]. *)
Definition lead_data (df : list SweepRow) : list SweepRow :=
  filter (fun row => String.eqb (row_material row) "lead") df.

(** [row['resolution'] < min_resolution], where [None] is the initial
    [float('inf')]. *)
Definition below_min (resolution : R) (min_resolution : option R) : bool :=
  match min_resolution with
  | None => true
  | Some m => if Rlt_dec resolution m then true else false
  end.

(** One iteration of the scan of [visualize_optimization_results] over the
    rows sorted by sensitivity. *)
Definition pareto_step (st : list SweepRow * option R) (row : SweepRow)
  : list SweepRow * option R :=
  let '(pareto_points, min_resolution) := st in
  if below_min (row_resolution row) min_resolution
  then (pareto_points ++ [row], Some (row_resolution row))
  else (pareto_points, min_resolution).

(** The rows of [pareto_df], from [lead_data_sorted]. *)
Definition pareto_points (lead_data_sorted : list SweepRow) : list SweepRow :=
  fst (fold_left pareto_step lead_data_sorted ([], None)).

Section Sweep.

Variable rng : Type.
Variable random_sample : rng -> R * rng.
Variable standard_normal : rng -> R * rng.

(** The body of the nested loops of [optimize_collimator]: one run with
    0.2 mm lead septa and the defaulted 100 x 100 holes.  The grid values
    are [numpy] floats, whose division by zero does not raise; this model
    agrees with the code on grids without a zero divisor. *)
Definition optimize_point (diameter length : R) (num_photons : Z) (g : rng)
  : Exc (OptimizeRow * rng) :=
  params <- CollimatorParams_init diameter length 0.2 "lead" 100 100 ;;
  sim <- SPECTSimulator_init params ;;
  '(sim_results, g') <-
    simulate_photon_transport rng random_sample standard_normal
      sim num_photons 100.0 g ;;
  metrics <- calculate_metrics sim sim_results ;;
  sensitivity <- getitem metrics "sensitivity" ;;
  spatial_resolution <- getitem metrics "spatial_resolution_fwhm" ;;
  uniformity <- getitem metrics "uniformity" ;;
  ret (Build_OptimizeRow diameter length sensitivity spatial_resolution uniformity, g').

(** [for length in hole_lengths]. *)
Fixpoint optimize_lengths (diameter : R) (hole_lengths : list R) (num_photons : Z)
    (results : list OptimizeRow) (g : rng) : Exc (list OptimizeRow * rng) :=
  match hole_lengths with
  | [] => ret (results, g)
  | length :: rest =>
      '(row, g') <- optimize_point diameter length num_photons g ;;
      optimize_lengths diameter rest num_photons (results ++ [row]) g'
  end.

(** [for diameter in hole_diameters]. *)
Fixpoint optimize_diameters (hole_diameters hole_lengths : list R) (num_photons : Z)
    (results : list OptimizeRow) (g : rng) : Exc (list OptimizeRow * rng) :=
  match hole_diameters with
  | [] => ret (results, g)
  | diameter :: rest =>
      '(results', g') <- optimize_lengths diameter hole_lengths num_photons results g ;;
      optimize_diameters rest hole_lengths num_photons results' g'
  end.

(** [optimize_collimator]; a range is the triple (min, max, steps). *)
Definition optimize_collimator (param_ranges : list (string * (R * R * nat)))
    (num_photons : Z) (g : rng) : Exc (list OptimizeRow * rng) :=
  '(d_min, d_max, d_steps) <- getitem param_ranges "hole_diameter" ;;
  '(l_min, l_max, l_steps) <- getitem param_ranges "hole_length" ;;
  let hole_diameters := np_linspace d_min d_max d_steps in
  let hole_lengths := np_linspace l_min l_max l_steps in
  optimize_diameters hole_diameters hole_lengths num_photons [] g.

End Sweep.

(** ** Merging runs *)

(** Accumulators of two consecutive stretches of the loop, put together:
    photons in detection order, counters added. *)
Definition acc_merge (a b : accumulators) : accumulators :=
  Build_accumulators
    (acc_detected_photons a ++ acc_detected_photons b)
    (acc_septal_penetration_count a + acc_septal_penetration_count b)
    (acc_geometric_rejection_count a + acc_geometric_rejection_count b).

(** The result of a run of [total_photons r1 + total_photons r2] photons
    from those of its two stretches. *)
Definition merge_results (r1 r2 : SimulationResult) : SimulationResult :=
  Build_SimulationResult
    (detected_photons r1 ++ detected_photons r2)
    (total_photons r1 + total_photons r2)
    (detected_count r1 + detected_count r2)
    (septal_penetration r1 + septal_penetration r2)
    (geometric_rejection r1 + geometric_rejection r2).

(** A simulator whose septa have no thickness. *)
Definition thin_simulator : SPECTSimulator :=
  Build_SPECTSimulator (CollimatorParams_new 1.5 25.0 0 "lead")
                       (Build_MaterialProperties 11.34 23.0 "Lead").

(** A simulator with the holes of [main] widened to 2 mm. *)
Definition wide_simulator : SPECTSimulator :=
  Build_SPECTSimulator (CollimatorParams_new 2.0 25.0 0.2 "lead")
                       (Build_MaterialProperties 11.34 23.0 "Lead").

(** Ranges for a sweep over three hole diameters and two hole lengths. *)
Definition example_ranges : list (string * (R * R * nat)) :=
  [ ("hole_diameter"%string, (1.0, 2.0, 3%nat));
    ("hole_length"%string, (20, 30, 2%nat)) ].

(** The rows that the scan keeps from [rows] when it starts with the
    running minimum [min_resolution]. *)
Fixpoint pareto_scan (rows : list SweepRow) (min_resolution : option R)
  : list SweepRow :=
  match rows with
  | [] => []
  | row :: rest =>
      if below_min (row_resolution row) min_resolution
      then row :: pareto_scan rest (Some (row_resolution row))
      else pareto_scan rest min_resolution
  end.

(** Three lead rows in the order of their sensitivity. *)
Definition example_sweep : list SweepRow :=
  [ Build_SweepRow "lead" 1.0 25.0 1 5 80 2 (Some 16);
    Build_SweepRow "lead" 1.5 25.0 2 6 80 2 (Some (80 / 3));
    Build_SweepRow "lead" 2.0 25.0 3 4 80 2 (Some 60) ].

(** The geometry of [main] with brass septa. *)
Definition brass_simulator : SPECTSimulator :=
  Build_SPECTSimulator main_params (Build_MaterialProperties 8.5 8.0 "Brass").

(** The metric entries that [visualize_results] reads, in the order it
    reads them (the title of the profile, then the text panel); the
    plotting itself is not modelled.  Without detected photons the function
    prints a message and returns before it reads any. *)
Definition visualize_results_reads (simulation_results : SimulationResult)
    (metrics : Metrics) : Exc (list R) :=
  let photons := detected_photons simulation_results in
  if (List.length photons =? 0)%nat then ret []
  else
    title <- getitem metrics "spatial_resolution_fwhm" ;;
    sensitivity <- getitem metrics "sensitivity" ;;
    resolution <- getitem metrics "spatial_resolution_fwhm" ;;
    uniformity <- getitem metrics "uniformity" ;;
    cnr <- getitem metrics "contrast_to_noise" ;;
    efficiency <- getitem metrics "geometric_efficiency" ;;
    penetration <- getitem metrics "septal_penetration_fraction" ;;
    ret [title; sensitivity; resolution; uniformity; cnr; efficiency; penetration].

(** A recorded position that is the pair of quotients of the transport by
    the axial direction cosine [dz = cos theta] of some angle with
    [dz > 0]. *)
Definition divides_by_positive_dz (self : SPECTSimulator) (ph : Photon) : Prop :=
  exists theta phi x0 y0,
    0 < cos theta
    /\ x ph = x0 + sin theta * cos phi * hole_length (self_params self) / cos theta
    /\ y ph = y0 + sin theta * sin phi * hole_length (self_params self) / cos theta.

(** * Theorems *)

Lemma bind_inr {A B : Type} (m : Exc A) (k : A -> Exc B) (a : A) :
  m = inr a -> bind m k = k a.
Proof. intros ->. reflexivity. Qed.

Lemma pydiv_nonzero (a b : R) : b <> 0 -> pydiv a b = inr (a / b).
Proof.
  intros Hb. unfold pydiv. destruct (Req_dec_T b 0) as [E | _]; [contradiction | reflexivity].
Qed.

Lemma main_params_valid : valid_geometry main_params.
Proof. unfold valid_geometry, main_params, CollimatorParams_new; simpl. repeat split; try lra; lia. Qed.

Lemma record_outcome_accounted (acc : accumulators) (o : outcome) :
  accounted (record_outcome acc o) = (accounted acc + 1)%Z.
Proof.
  unfold accounted. destruct o; simpl; try lia.
  rewrite length_app. simpl. lia.
Qed.

Section TransportFacts.

Variable rng : Type.
Variable random_sample : rng -> R * rng.
Variable standard_normal : rng -> R * rng.

Local Abbreviation trace := (trace_photon rng random_sample standard_normal).
Local Abbreviation trial := (photon_trial rng random_sample standard_normal).
Local Abbreviation trials := (run_trials rng random_sample standard_normal).
Local Abbreviation simulate :=
  (simulate_photon_transport rng random_sample standard_normal).

(** With a valid geometry no division of an iteration raises: the
    iteration always ends in one of the three outcomes. *)
Lemma trace_photon_total (self : SPECTSimulator) (theta phi x0 y0 : R) (g : rng) :
  valid_geometry (self_params self) ->
  exists o g', trace self theta phi x0 y0 g = inr (o, g').
Proof.
  intros (Hd & Hl & Hs & _ & _). unfold trace_photon. cbv zeta.
  do 3 (rewrite pydiv_nonzero by lra; cbn [bind]).
  destruct (Rgt_dec _ _); [eexists; eexists; reflexivity |].
  unfold np_random_random. destruct (random_sample g) as [u g1].
  destruct (Rgt_dec _ _); [eexists; eexists; reflexivity |].
  unfold np_random_normal. destruct (standard_normal g1) as [z g2].
  eexists; eexists; reflexivity.
Qed.

Lemma photon_trial_total (self : SPECTSimulator) (g : rng) :
  valid_geometry (self_params self) ->
  exists o g', trial self g = inr (o, g').
Proof.
  intros Hv. unfold photon_trial.
  destruct (sample_photon _ _ _ _) as [[[[theta phi] x0] y0] g'].
  now apply trace_photon_total.
Qed.

(** The loop invariant: [n] iterations account for [n] more trials. *)
Lemma run_trials_accounted (self : SPECTSimulator) :
  valid_geometry (self_params self) ->
  forall (n : nat) (acc : accumulators) (g : rng),
  exists acc' g',
    trials self n acc g = inr (acc', g')
    /\ accounted acc' = (accounted acc + Z.of_nat n)%Z.
Proof.
  intros Hv. induction n as [| n IH]; intros acc g.
  - exists acc, g. split; [reflexivity | lia].
  - destruct (photon_trial_total self g Hv) as (o & g1 & Ht).
    destruct (IH (record_outcome acc o) g1) as (acc' & g' & Hrun & Hacc).
    exists acc', g'. split.
    + cbn [run_trials]. rewrite (bind_inr _ _ _ Ht). exact Hrun.
    + rewrite Hacc, record_outcome_accounted. lia.
Qed.

(** C1: for a valid geometry and a photon count [N >= 0] the simulation
    returns a result, and in it the detected, septally absorbed and
    geometrically rejected photons add up to [total_photons], which is
    [N]: every iteration ends in exactly one of the three outcomes. *)
Theorem simulate_accounts_for_every_photon
    (self : SPECTSimulator) (N : Z) (source_distance : R) (g : rng) :
  valid_geometry (self_params self) ->
  (0 <= N)%Z ->
  exists r g',
    simulate self N source_distance g = inr (r, g')
    /\ (detected_count r + septal_penetration r + geometric_rejection r
        = total_photons r)%Z
    /\ total_photons r = N.
Proof.
  intros Hv HN.
  destruct (run_trials_accounted self Hv (Z.to_nat N) acc_init g)
    as (acc & g' & Hrun & Hacc).
  unfold simulate_photon_transport.
  rewrite (bind_inr _ _ _ Hrun).
  eexists; eexists; split; [reflexivity |]. simpl. split; [| reflexivity].
  unfold accounted in Hacc. simpl in Hacc. lia.
Qed.

(** C8: [source_distance] is a dead parameter: two runs from the same
    generator state that differ only in it return the same result and
    leave the generator in the same state. *)
Theorem source_distance_is_dead
    (self : SPECTSimulator) (N : Z) (d1 d2 : R) (g : rng) :
  simulate self N d1 g = simulate self N d2 g.
Proof. reflexivity. Qed.

Lemma run_trials_nonneg (self : SPECTSimulator) (n : nat) :
  forall (acc acc' : accumulators) (g g' : rng),
  trials self n acc g = inr (acc', g') ->
  (0 <= acc_septal_penetration_count acc)%Z
  /\ (0 <= acc_geometric_rejection_count acc)%Z ->
  (0 <= acc_septal_penetration_count acc')%Z
  /\ (0 <= acc_geometric_rejection_count acc')%Z.
Proof.
  induction n as [| n IH]; intros acc acc' g g' Hrun Hacc.
  - injection Hrun as <- _. exact Hacc.
  - cbn [run_trials] in Hrun.
    destruct (trial self g) as [e | [o g1]]; [discriminate |].
    cbn [bind] in Hrun. apply (IH _ _ _ _ Hrun).
    destruct o; cbn; lia.
Qed.

(** What a run returns is a well-formed result. *)
Lemma simulate_result_well_formed
    (self : SPECTSimulator) (N : Z) (source_distance : R) (g : rng) :
  valid_geometry (self_params self) ->
  (0 <= N)%Z ->
  exists r g',
    simulate self N source_distance g = inr (r, g')
    /\ well_formed_result r /\ total_photons r = N.
Proof.
  intros Hv HN.
  destruct (run_trials_accounted self Hv (Z.to_nat N) acc_init g)
    as (acc & g' & Hrun & Hacc).
  destruct (run_trials_nonneg self _ _ _ _ _ Hrun ltac:(cbn; lia)) as [Hs Hg].
  unfold simulate_photon_transport. rewrite (bind_inr _ _ _ Hrun).
  eexists; eexists; split; [reflexivity |]. split; [| reflexivity].
  unfold well_formed_result, accounted in *. cbn in *. lia.
Qed.

End TransportFacts.

Lemma simulate_accounts_for_every_photon_witness :
  exists r g',
    simulate_photon_transport TapeRng.rng TapeRng.random_sample TapeRng.standard_normal
      main_simulator 3 100.0 [500000000; 0; 1; 2; 3; 4]%Z = inr (r, g')
    /\ (detected_count r + septal_penetration r + geometric_rejection r
        = total_photons r)%Z
    /\ total_photons r = 3%Z.
Proof.
  apply (simulate_accounts_for_every_photon
           TapeRng.rng TapeRng.random_sample TapeRng.standard_normal
           main_simulator 3 100.0 [500000000; 0; 1; 2; 3; 4]%Z).
  - exact main_params_valid.
  - lia.
Defined.

(** ** Construction *)

Lemma dict_get_MATERIALS (m : string) :
  (exists props, dict_get MATERIALS m = Some props) <-> In m known_materials.
Proof.
  unfold MATERIALS, known_materials. cbn [dict_get In]. split.
  - intros [props H].
    destruct (String.eqb_spec "lead" m) as [E | _]; [now left |].
    destruct (String.eqb_spec "tungsten" m) as [E | _]; [now right; left |].
    destruct (String.eqb_spec "brass" m) as [E | _]; [now right; right; left |].
    discriminate.
  - intros [<- | [<- | [<- | []]]]; cbn; eexists; reflexivity.
Qed.

(** C4 (as amended): constructing a [CollimatorParams] succeeds for every
    choice of dimensions; constructing the simulator from it raises
    [KeyError] exactly when the material name is not one of lead, tungsten
    and brass, and succeeds exactly when it is one of them. *)
Theorem construction_checks_only_the_material
    (d l s : R) (m : string) (nx ny : Z) :
  exists p,
    CollimatorParams_init d l s m nx ny = inr p
    /\ (SPECTSimulator_init p = inl (KeyError m) <-> ~ In m known_materials)
    /\ ((exists sim, SPECTSimulator_init p = inr sim) <-> In m known_materials).
Proof.
  eexists. split; [reflexivity |].
  unfold SPECTSimulator_init. cbn [material].
  pose proof (dict_get_MATERIALS m) as Hm.
  destruct (dict_get MATERIALS m) as [props |].
  - assert (In m known_materials) as Hin by (apply Hm; eauto).
    split; split; intros H; try discriminate; try contradiction; eauto.
  - assert (~ In m known_materials) as Hnin
        by (intros Hin; apply Hm in Hin; destruct Hin; discriminate).
    split; split; intros H; try reflexivity; try contradiction; auto.
    destruct H; discriminate.
Qed.

(** ** Metrics *)

Lemma pytruediv_nonzero (a b : Z) : b <> 0%Z -> pytruediv a b = inr (IZR a / IZR b).
Proof.
  intros Hb. unfold pytruediv. destruct (Z.eqb_spec b 0); [contradiction | reflexivity].
Qed.

Lemma pytruediv_zero (a : Z) : pytruediv a 0 = inl ZeroDivisionError.
Proof. reflexivity. Qed.

Lemma np_sum_nonneg (a : list R) : Forall (fun v => 0 <= v) a -> 0 <= np_sum a.
Proof.
  induction 1 as [| v a Hv _ IH]; simpl; lra.
Qed.

Lemma np_std_nonneg (a : list R) : 0 <= np_std a.
Proof. unfold np_std. apply sqrt_pos. Qed.

Lemma _calculate_fwhm_nonneg (self : SPECTSimulator) (positions : list R) :
  0 <= _calculate_fwhm self positions.
Proof.
  unfold _calculate_fwhm. destruct (_ <? _)%nat; [lra |].
  pose proof (np_std_nonneg positions). nra.
Qed.

(** A well-formed result with a detected photon has a non-zero total. *)
Lemma well_formed_total_nonzero (r : SimulationResult) :
  well_formed_result r -> detected_photons r <> [] -> total_photons r <> 0%Z.
Proof.
  intros (Hd & Hs & Hg & Hsum) Hne.
  destruct (detected_photons r) as [| p ps]; [contradiction |].
  simpl List.length in Hd. lia.
Qed.

(** [calculate_metrics] past its early return, when the total is not zero. *)
Lemma calculate_metrics_counts (self : SPECTSimulator) (r : SimulationResult) :
  detected_photons r <> [] -> total_photons r <> 0%Z ->
  calculate_metrics self r =
  inr [ ("sensitivity"%string,
         IZR (Z.of_nat (List.length (detected_photons r))) / IZR (total_photons r) * 100);
        ("spatial_resolution_fwhm"%string,
         _calculate_fwhm self (map x (detected_photons r)));
        ("uniformity"%string, _calculate_uniformity self (detected_photons r) 10);
        ("contrast_to_noise"%string, sqrt (INR (List.length (detected_photons r))));
        ("septal_penetration_fraction"%string,
         IZR (septal_penetration r) / IZR (total_photons r) * 100);
        ("geometric_efficiency"%string,
         IZR (total_photons r - geometric_rejection r) / IZR (total_photons r) * 100) ].
Proof.
  intros Hne Htot. unfold calculate_metrics.
  destruct (detected_photons r) as [| p ps] eqn:E; [contradiction |].
  cbn [List.length Nat.eqb Nat.ltb Nat.leb].
  rewrite !pytruediv_nonzero by assumption. reflexivity.
Qed.

Lemma calculate_metrics_no_counts (self : SPECTSimulator) (r : SimulationResult) :
  detected_photons r = [] -> calculate_metrics self r = inr no_counts_metrics.
Proof. intros E. unfold calculate_metrics. rewrite E. reflexivity. Qed.

(** C3 (the code evaluated where the claim fails): a run with zero photons
    returns the empty result with all counters zero, and on it
    [calculate_metrics] returns the four-entry dict of its early return:
    sensitivity, resolution, uniformity and contrast-to-noise are zero, the
    septal penetration fraction and the geometric efficiency are absent. *)
Theorem calculate_metrics_without_counts_has_four_fields
    (rng : Type) (random_sample standard_normal : rng -> R * rng)
    (self : SPECTSimulator) (source_distance : R) (g : rng) :
  simulate_photon_transport rng random_sample standard_normal self 0 source_distance g
  = inr (empty_result, g)
  /\ calculate_metrics self empty_result = inr no_counts_metrics
  /\ dict_get no_counts_metrics "sensitivity" = Some 0.0
  /\ dict_get no_counts_metrics "spatial_resolution_fwhm" = Some 0.0
  /\ dict_get no_counts_metrics "uniformity" = Some 0.0
  /\ dict_get no_counts_metrics "contrast_to_noise" = Some 0.0
  /\ dict_get no_counts_metrics "septal_penetration_fraction" = None
  /\ dict_get no_counts_metrics "geometric_efficiency" = None.
Proof. repeat split. Qed.

(** C5 (the code evaluated where the claim fails): on a well-formed
    result with a detected photon the three percentages are the stated
    quotients.  A well-formed result with a zero total records no photon:
    [calculate_metrics] takes its early return without dividing, the
    sensitivity is 0, and the septal penetration fraction and the geometric
    efficiency are absent from the dict instead of being 0. *)
Theorem calculate_metrics_percentages_of_runs
    (self : SPECTSimulator) (r : SimulationResult) :
  well_formed_result r ->
  ((0 < detected_count r)%Z ->
   exists m,
     calculate_metrics self r = inr m
     /\ dict_get m "sensitivity"
        = Some (IZR (detected_count r) / IZR (total_photons r) * 100)
     /\ dict_get m "septal_penetration_fraction"
        = Some (IZR (septal_penetration r) / IZR (total_photons r) * 100)
     /\ dict_get m "geometric_efficiency"
        = Some (IZR (total_photons r - geometric_rejection r)
                / IZR (total_photons r) * 100))
  /\ (total_photons r = 0%Z ->
      detected_photons r = []
      /\ calculate_metrics self r = inr no_counts_metrics
      /\ dict_get no_counts_metrics "sensitivity" = Some 0.0
      /\ dict_get no_counts_metrics "septal_penetration_fraction" = None
      /\ dict_get no_counts_metrics "geometric_efficiency" = None).
Proof.
  intros Hwf. pose proof Hwf as (Hd & Hs & Hg & Hsum). split.
  - intros Hpos.
    assert (detected_photons r <> []) as Hne
        by (intros E; rewrite E in Hd; simpl in Hd; lia).
    pose proof (well_formed_total_nonzero r Hwf Hne) as Htot.
    rewrite (calculate_metrics_counts self r Hne Htot), Hd.
    eexists. split; [reflexivity |]. repeat split.
  - intros Hz.
    assert (detected_photons r = []) as E
        by (destruct (detected_photons r); [reflexivity | simpl in Hd; lia]).
    split; [exact E |].
    split; [exact (calculate_metrics_no_counts self r E) |]. repeat split.
Qed.

(** C6: on every well-formed result [calculate_metrics] returns a spatial
    resolution; it is 2.355 times the standard deviation of the detected x
    positions when at least ten photons were detected, it is 0 below ten,
    and it is never negative. *)
Theorem spatial_resolution_metric (self : SPECTSimulator) (r : SimulationResult) :
  well_formed_result r ->
  exists m v,
    calculate_metrics self r = inr m
    /\ dict_get m "spatial_resolution_fwhm" = Some v
    /\ 0 <= v
    /\ ((10 <= detected_count r)%Z ->
        v = 2.355 * np_std (map x (detected_photons r)))
    /\ ((detected_count r < 10)%Z -> v = 0).
Proof.
  intros Hwf. pose proof Hwf as (Hd & _).
  destruct (detected_photons r) as [| p ps] eqn:E.
  - rewrite (calculate_metrics_no_counts self r E).
    exists no_counts_metrics, 0.0. split; [reflexivity |]. split; [reflexivity |].
    split; [lra |]. split; [simpl in Hd; lia | intros _; lra].
  - assert (detected_photons r <> []) as Hne by (rewrite E; discriminate).
    rewrite (calculate_metrics_counts self r Hne (well_formed_total_nonzero r Hwf Hne)).
    eexists. eexists. split; [reflexivity |]. split; [reflexivity |].
    split; [apply _calculate_fwhm_nonneg |].
    rewrite E. unfold _calculate_fwhm. rewrite length_map.
    destruct (Nat.ltb_spec (List.length (p :: ps)) 10) as [Hlt | Hge].
    + split; [lia | intros _; lra].
    + split; [reflexivity | lia].
Qed.

(** ** The histogram of the uniformity metric *)

Lemma pymax_Rmax (a b : R) : pymax a b = Rmax a b.
Proof.
  unfold pymax, Rmax. destruct (Rgt_dec b a), (Rle_dec a b); lra.
Qed.

Lemma fold_left_Rmin_le (a : list R) (v : R) :
  fold_left Rmin a v <= v /\ Forall (fun e => fold_left Rmin a v <= e) a.
Proof.
  revert v. induction a as [| e a IH]; intros v; simpl.
  - split; [lra | constructor].
  - destruct (IH (Rmin v e)) as [H1 H2].
    pose proof (Rmin_l v e). pose proof (Rmin_r v e).
    split; [lra |]. constructor; [lra | exact H2].
Qed.

Lemma fold_left_Rmax_ge (a : list R) (v : R) :
  v <= fold_left Rmax a v /\ Forall (fun e => e <= fold_left Rmax a v) a.
Proof.
  revert v. induction a as [| e a IH]; intros v; simpl.
  - split; [lra | constructor].
  - destruct (IH (Rmax v e)) as [H1 H2].
    pose proof (Rmax_l v e). pose proof (Rmax_r v e).
    split; [lra |]. constructor; [lra | exact H2].
Qed.

(** The outer edges are apart and enclose every sample. *)
Lemma _get_outer_edges_encloses (a : list R) :
  fst (_get_outer_edges a) < snd (_get_outer_edges a)
  /\ Forall (fun e => fst (_get_outer_edges a) <= e <= snd (_get_outer_edges a)) a.
Proof.
  destruct a as [| v a]; [simpl; split; [lra | constructor] |].
  unfold _get_outer_edges.
  destruct (fold_left_Rmin_le a v) as [Hmin Hmins].
  destruct (fold_left_Rmax_ge a v) as [Hmax Hmaxs].
  assert (Forall (fun e => fold_left Rmin a v <= e <= fold_left Rmax a v) (v :: a)) as Hall.
  { constructor; [lra |]. rewrite Forall_forall in *. intros e He.
    split; [apply Hmins | apply Hmaxs]; exact He. }
  destruct (Req_dec_T _ _) as [E | NE]; cbn [fst snd].
  - split; [lra |]. eapply Forall_impl; [| exact Hall]. cbn. intros e He. lra.
  - split; [lra | exact Hall].
Qed.

Lemma filter_length_le {A : Type} (f : A -> bool) (l : list A) :
  (List.length (filter f l) <= List.length l)%nat.
Proof.
  induction l as [| a l IH]; simpl; [lia |]. destruct (f a); simpl; lia.
Qed.

Lemma filter_all {A : Type} (f : A -> bool) (l : list A) :
  Forall (fun a => f a = true) l -> filter f l = l.
Proof.
  induction 1 as [| a l Ha _ IH]; simpl; [reflexivity |]. now rewrite Ha, IH.
Qed.

(** The evenly spaced edges of [bins >= 1] bins between [lo < hi]. *)
Lemma np_linspace_edges (lo hi : R) (bins : nat) :
  (1 <= bins)%nat ->
  np_linspace lo hi (bins + 1)
  = map (fun k => INR k * ((hi - lo) / INR bins) + lo) (seq 0 bins) ++ [hi].
Proof.
  intros Hb. rewrite Nat.add_1_r. unfold np_linspace.
  destruct bins as [| b]; [lia | reflexivity].
Qed.

Lemma inner_edges_below (lo hi : R) (bins : nat) :
  lo < hi ->
  Forall (fun e => lo <= e <= hi)
         (map (fun k => INR k * ((hi - lo) / INR bins) + lo) (seq 0 bins)).
Proof.
  intros Hlt. rewrite Forall_forall. intros e He.
  apply in_map_iff in He. destruct He as (k & <- & Hk).
  apply in_seq in Hk.
  assert (0 < INR bins) as Hb by (apply lt_0_INR; lia).
  assert (0 <= INR k) as Hk0 by apply pos_INR.
  assert (INR k <= INR bins) as Hkb by (apply le_INR; lia).
  assert (0 < (hi - lo) / INR bins) as Hstep
      by (apply Rdiv_lt_0_compat; lra).
  assert (INR bins * ((hi - lo) / INR bins) = hi - lo) as Hfull
      by (field; lra).
  split; [nra | nra].
Qed.

(** A sample between the outer edges gets a bin number in [1 .. bins]. *)
Lemma bin_number_in_range (lo hi v : R) (bins : nat) :
  (1 <= bins)%nat -> lo < hi -> lo <= v <= hi ->
  (1 <= bin_number (np_linspace lo hi (bins + 1)) v <= bins)%nat.
Proof.
  intros Hb Hlt Hv. rewrite (np_linspace_edges lo hi bins Hb).
  set (inner := map (fun k => INR k * ((hi - lo) / INR bins) + lo) (seq 0 bins)).
  pose proof (inner_edges_below lo hi bins Hlt) as Hin. fold inner in Hin.
  assert (List.length inner = bins) as Hlen
      by (unfold inner; now rewrite length_map, length_seq).
  assert (1 <= List.length (filter (fun e => if Rle_dec e v then true else false) inner))%nat
    as Hfirst.
  { unfold inner. destruct bins as [| b]; [lia |].
    cbn [seq map filter]. destruct (Rle_dec _ v) as [_ | Hn]; [simpl; lia |].
    exfalso. apply Hn. simpl INR at 1. lra. }
  unfold bin_number, np_searchsorted_right.
  rewrite last_last, filter_app, length_app. cbn [filter].
  destruct (Req_dec_T v hi) as [-> | Hne].
  - rewrite filter_all.
    + destruct (Rle_dec hi hi) as [_ | Hn]; [| exfalso; lra]. simpl. lia.
    + eapply Forall_impl; [| exact Hin]. cbn. intros e He.
      destruct (Rle_dec e hi); [reflexivity | lra].
  - destruct (Rle_dec hi v) as [Hle | _]; [exfalso; lra |].
    pose proof (filter_length_le (fun e => if Rle_dec e v then true else false) inner).
    simpl. lia.
Qed.

Lemma axis_bin_numbers_in_range (a : list R) (bins : nat) :
  (1 <= bins)%nat ->
  Forall (fun n => (1 <= n <= bins)%nat) (map (bin_number (axis_edges a bins)) a).
Proof.
  intros Hb. unfold axis_edges.
  destruct (_get_outer_edges_encloses a) as [Hlt Hall].
  destruct (_get_outer_edges a) as [lo hi]. cbn [fst snd] in *.
  rewrite Forall_map. eapply Forall_impl; [| exact Hall]. cbn.
  intros v Hv. now apply bin_number_in_range.
Qed.

Lemma np_sum_app (a b : list R) : np_sum (a ++ b) = np_sum a + np_sum b.
Proof.
  induction a as [| v a IH]; simpl; [lra | rewrite IH; lra].
Qed.

Lemma np_sum_concat_map {A : Type} (g : A -> list R) (l : list A) :
  np_sum (List.concat (map g l)) = np_sum (map (fun i => np_sum (g i)) l).
Proof.
  induction l as [| i l IH]; simpl; [reflexivity |].
  now rewrite np_sum_app, IH.
Qed.

Lemma np_sum_map_plus {A : Type} (f g : A -> R) (l : list A) :
  np_sum (map (fun i => f i + g i) l) = np_sum (map f l) + np_sum (map g l).
Proof.
  induction l as [| i l IH]; simpl; [lra | rewrite IH; lra].
Qed.

Lemma np_sum_map_zero {A : Type} (f : A -> R) (l : list A) :
  (forall i, f i = 0) -> np_sum (map f l) = 0.
Proof.
  intros Hf. induction l as [| i l IH]; simpl; [reflexivity | rewrite Hf, IH; lra].
Qed.

(** Summing an indicator of one index over a range of indices. *)
Lemma np_sum_indicator (k : nat) (c : R) (a n : nat) :
  np_sum (map (fun j => if (k =? j)%nat then c else 0) (seq a n))
  = if ((a <=? k) && (k <? a + n))%nat then c else 0.
Proof.
  revert a. induction n as [| n IH]; intros a.
  - simpl. destruct (Nat.leb_spec a k), (Nat.ltb_spec k (a + 0)); simpl; try reflexivity; lia.
  - cbn [seq map np_sum fold_right]. fold (np_sum (map (fun j => if (k =? j)%nat then c else 0) (seq (S a) n))).
    rewrite IH.
    destruct (Nat.eqb_spec k a), (Nat.leb_spec a k), (Nat.leb_spec (S a) k),
      (Nat.ltb_spec k (a + S n)), (Nat.ltb_spec k (S a + n)); simpl; try lra; lia.
Qed.

Lemma bincount2_cons (n : nat * nat) (numbers : list (nat * nat)) (i j : nat) :
  INR (bincount2 (n :: numbers) i j)
  = (if (fst n =? i)%nat then (if (snd n =? j)%nat then 1 else 0) else 0)
    + INR (bincount2 numbers i j).
Proof.
  unfold bincount2. cbn [filter].
  destruct (fst n =? i)%nat, (snd n =? j)%nat; cbn [andb];
    try (rewrite Rplus_0_l; reflexivity).
  cbn [List.length]. rewrite S_INR. lra.
Qed.

(** Every sample with bin numbers in [1 .. bins] is in exactly one cell, so
    the cells add up to the number of samples. *)
Lemma histogram_total (numbers : list (nat * nat)) (bins : nat) :
  Forall (fun n => (1 <= fst n <= bins)%nat /\ (1 <= snd n <= bins)%nat) numbers ->
  np_sum (List.concat
            (map (fun i => map (fun j => INR (bincount2 numbers i j)) (seq 1 bins))
                 (seq 1 bins)))
  = INR (List.length numbers).
Proof.
  intros Hall. rewrite np_sum_concat_map.
  induction Hall as [| n numbers [Hi Hj] _ IH].
  - cbn [List.length INR].
    apply np_sum_map_zero. intros i. apply np_sum_map_zero. reflexivity.
  - erewrite map_ext.
    2:{ intros i. erewrite map_ext; [| intros j; apply bincount2_cons].
        rewrite np_sum_map_plus. reflexivity. }
    rewrite np_sum_map_plus, IH. cbn [List.length]. rewrite S_INR.
    erewrite map_ext.
    2:{ intros i. destruct (fst n =? i)%nat eqn:E.
        - rewrite (np_sum_indicator (snd n) 1 1 bins).
          replace ((1 <=? snd n) && (snd n <? 1 + bins))%nat%bool with true
            by (symmetry; apply andb_true_iff; split;
                [apply Nat.leb_le | apply Nat.ltb_lt]; lia).
          instantiate (1 := fun i => if (fst n =? i)%nat then 1 else 0).
          cbn. now rewrite E.
        - cbn. rewrite E. now apply np_sum_map_zero. }
    rewrite (np_sum_indicator (fst n) 1 1 bins).
    replace ((1 <=? fst n) && (fst n <? 1 + bins))%nat%bool with true
      by (symmetry; apply andb_true_iff; split;
          [apply Nat.leb_le | apply Nat.ltb_lt]; lia).
    lra.
Qed.

Lemma histogram_cells {A B : Type} (g : A -> B -> R) (l1 : list A) (l2 : list B) :
  List.length (List.concat (map (fun i => map (g i) l2) l1))
  = (List.length l1 * List.length l2)%nat.
Proof.
  induction l1 as [| i l1 IH]; simpl; [reflexivity |].
  now rewrite length_app, length_map, IH.
Qed.

(** The histogram has [bins * bins] cells that add up to the number of
    samples. *)
Lemma np_histogram2d_total (xs ys : list R) (bins : nat) :
  (1 <= bins)%nat -> List.length xs = List.length ys ->
  List.length (List.concat (np_histogram2d xs ys bins)) = (bins * bins)%nat
  /\ np_sum (List.concat (np_histogram2d xs ys bins)) = INR (List.length xs).
Proof.
  intros Hb Hlen. unfold np_histogram2d. split.
  - rewrite (histogram_cells (fun i j => INR (bincount2 _ i j))).
    now rewrite length_seq.
  - rewrite histogram_total.
    + rewrite length_combine, !length_map, <- Hlen. now rewrite Nat.min_id.
    + pose proof (axis_bin_numbers_in_range xs bins Hb) as Hx.
      pose proof (axis_bin_numbers_in_range ys bins Hb) as Hy.
      rewrite Forall_forall in *. intros [i j] Hin. cbn [fst snd].
      split; [apply Hx | apply Hy];
        [eapply in_combine_l | eapply in_combine_r]; exact Hin.
Qed.

(** With at least one sample the mean cell count is positive. *)
Lemma np_histogram2d_mean_pos (xs ys : list R) (bins : nat) :
  (1 <= bins)%nat -> List.length xs = List.length ys -> xs <> [] ->
  0 < np_mean (List.concat (np_histogram2d xs ys bins)).
Proof.
  intros Hb Hlen Hne.
  destruct (np_histogram2d_total xs ys bins Hb Hlen) as [Hcells Htotal].
  unfold np_mean. rewrite Htotal, Hcells.
  apply Rdiv_lt_0_compat; apply lt_0_INR.
  - destruct xs; [contradiction | simpl; lia].
  - nia.
Qed.

Lemma diagonal_result_well_formed : well_formed_result diagonal_result.
Proof. unfold well_formed_result. simpl. lia. Qed.

(** C7: on every well-formed result [calculate_metrics] returns a
    uniformity.  With at least ten detected photons the positions are
    binned into the 100 cells of a 10 x 10 grid, the mean cell count is
    positive, and the uniformity is the larger of 0 and
    [(1 - std / mean) * 100] of the cell counts; below ten detected photons
    it is 0; and it is 0 whenever the mean cell count is not positive. *)
Theorem uniformity_metric (self : SPECTSimulator) (r : SimulationResult) :
  well_formed_result r ->
  let hist :=
    List.concat (np_histogram2d (map x (detected_photons r))
                                (map y (detected_photons r)) 10) in
  exists m v,
    calculate_metrics self r = inr m
    /\ dict_get m "uniformity" = Some v
    /\ List.length hist = 100%nat
    /\ ((10 <= detected_count r)%Z ->
        0 < np_mean hist
        /\ v = Rmax 0 ((1 - np_std hist / np_mean hist) * 100))
    /\ ((detected_count r < 10)%Z -> v = 0)
    /\ (~ 0 < np_mean hist -> v = 0).
Proof.
  intros Hwf hist. pose proof Hwf as (Hd & _).
  assert (List.length hist = 100%nat) as Hcells.
  { unfold hist.
    now destruct (np_histogram2d_total (map x (detected_photons r))
                    (map y (detected_photons r)) 10 ltac:(lia)
                    ltac:(now rewrite !length_map)) as [-> _]. }
  destruct (detected_photons r) as [| p ps] eqn:E.
  - rewrite (calculate_metrics_no_counts self r E).
    exists no_counts_metrics, 0.0. split; [reflexivity |]. split; [reflexivity |].
    split; [exact Hcells |].
    split; [simpl in Hd; lia |]. split; intros _; lra.
  - assert (detected_photons r <> []) as Hne by (rewrite E; discriminate).
    rewrite (calculate_metrics_counts self r Hne (well_formed_total_nonzero r Hwf Hne)).
    eexists. eexists. split; [reflexivity |]. split; [reflexivity |].
    split; [exact Hcells |].
    assert (0 < np_mean hist) as Hmean.
    { unfold hist. apply np_histogram2d_mean_pos;
        [lia | now rewrite !length_map | discriminate]. }
    rewrite E. unfold _calculate_uniformity. fold hist.
    destruct (Nat.ltb_spec (List.length (p :: ps)) 10) as [Hlt | Hge].
    + split; [lia |]. split; [intros _; lra | intros Hn; contradiction].
    + destruct (Rgt_dec (np_mean hist) 0) as [_ | Hn]; [| exfalso; apply Hn; lra].
      split; [intros _; split; [exact Hmean | apply pymax_Rmax] |].
      split; [lia | intros Hn; contradiction].
Qed.

Lemma uniformity_metric_witness :
  let hist :=
    List.concat (np_histogram2d (map x (detected_photons diagonal_result))
                                (map y (detected_photons diagonal_result)) 10) in
  exists m v,
    calculate_metrics main_simulator diagonal_result = inr m
    /\ dict_get m "uniformity" = Some v
    /\ List.length hist = 100%nat
    /\ ((10 <= detected_count diagonal_result)%Z ->
        0 < np_mean hist
        /\ v = Rmax 0 ((1 - np_std hist / np_mean hist) * 100))
    /\ ((detected_count diagonal_result < 10)%Z -> v = 0)
    /\ (~ 0 < np_mean hist -> v = 0).
Proof.
  apply (uniformity_metric main_simulator diagonal_result).
  exact diagonal_result_well_formed.
Defined.

Lemma spatial_resolution_metric_witness :
  exists m v,
    calculate_metrics main_simulator diagonal_result = inr m
    /\ dict_get m "spatial_resolution_fwhm" = Some v
    /\ 0 <= v
    /\ ((10 <= detected_count diagonal_result)%Z ->
        v = 2.355 * np_std (map x (detected_photons diagonal_result)))
    /\ ((detected_count diagonal_result < 10)%Z -> v = 0).
Proof.
  apply (spatial_resolution_metric main_simulator diagonal_result).
  exact diagonal_result_well_formed.
Defined.

Lemma empty_result_well_formed : well_formed_result empty_result.
Proof. unfold well_formed_result. simpl. lia. Qed.

Lemma calculate_metrics_percentages_of_runs_witness :
  total_photons empty_result = 0%Z
  /\ detected_photons empty_result = []
  /\ calculate_metrics main_simulator empty_result = inr no_counts_metrics
  /\ dict_get no_counts_metrics "sensitivity" = Some 0.0
  /\ dict_get no_counts_metrics "septal_penetration_fraction" = None
  /\ dict_get no_counts_metrics "geometric_efficiency" = None.
Proof.
  split; [reflexivity |].
  apply (calculate_metrics_percentages_of_runs main_simulator empty_result).
  - exact empty_result_well_formed.
  - reflexivity.
Defined.

(** C4 (as stated) fails: a configuration with zero hole diameter and
    negative hole length is constructed and accepted by the simulator; one
    with zero hole length is constructed too, and the division by zero
    surfaces in the first iteration of the simulation; an unknown material
    name raises [KeyError] in the simulator's constructor. *)
Lemma invalid_geometry_is_constructed_counterexample :
  (exists p sim,
      CollimatorParams_init 0 (-1) 0.2 "lead" 100 100 = inr p
      /\ SPECTSimulator_init p = inr sim)
  /\ (exists p sim,
         CollimatorParams_init 1.5 0 0.2 "lead" 100 100 = inr p
         /\ SPECTSimulator_init p = inr sim
         /\ simulate_photon_transport TapeRng.rng TapeRng.random_sample
              TapeRng.standard_normal sim 1 100.0 []
            = inl ZeroDivisionError)
  /\ (exists p,
         CollimatorParams_init 1.5 25.0 0.2 "gold" 100 100 = inr p
         /\ SPECTSimulator_init p = inl (KeyError "gold")).
Proof.
  split; [| split].
  - eexists. eexists. split; reflexivity.
  - eexists. eexists. split; [reflexivity |]. split; [reflexivity |].
    unfold simulate_photon_transport. change (Z.to_nat 1) with 1%nat. cbn [run_trials].
    unfold photon_trial, sample_photon, np_random_uniform. cbn [TapeRng.random_sample].
    unfold trace_photon. cbv zeta. cbn [self_params hole_diameter septal_thickness hole_length].
    do 2 (rewrite pydiv_nonzero by lra; cbn [bind]).
    unfold pydiv. destruct (Req_dec_T (2 * 0) 0) as [_ | Hn]; [reflexivity | exfalso; lra].
  - eexists. split; reflexivity.
Qed.

(** ** Angles *)

Lemma sin_lower (a : R) : 0 <= a -> a <= 1 -> a - a ^ 3 / 6 <= sin a.
Proof.
  intros H0 H1.
  assert (a <= PI) as HPI by (pose proof PI2_1; lra).
  destruct (SIN a H0 HPI) as [Hlb _].
  unfold sin_lb, sin_approx, sin_term in Hlb. cbn [sum_f_R0] in Hlb.
  change (2 * 0 + 1)%nat with 1%nat in Hlb.
  change (2 * 1 + 1)%nat with 3%nat in Hlb.
  change (2 * 2 + 1)%nat with 5%nat in Hlb.
  change (2 * 3 + 1)%nat with 7%nat in Hlb.
  replace (INR (fact 1)) with 1 in Hlb by (simpl; lra).
  replace (INR (fact 3)) with 6 in Hlb by (rewrite INR_IZR_INZ; reflexivity).
  replace (INR (fact 5)) with 120 in Hlb by (rewrite INR_IZR_INZ; reflexivity).
  replace (INR (fact 7)) with 5040 in Hlb by (rewrite INR_IZR_INZ; reflexivity).
  assert (0 <= a ^ 5 * (1 - a ^ 2 / 42)) as Hpos.
  { apply Rmult_le_pos; [apply pow_le; lra | nra]. }
  simpl in Hlb. simpl in Hpos. simpl. nra.
Qed.

Lemma tan_lower (a : R) : 0 < a -> a <= 1 -> a - a ^ 3 / 6 <= tan a.
Proof.
  intros H0 H1.
  assert (a < PI / 2) as HPI by (pose proof PI2_1; lra).
  pose proof (sin_lower a ltac:(lra) H1) as Hs.
  assert (0 < cos a) as Hc by (apply cos_gt_0; lra).
  pose proof (COS_bound a) as [_ Hc1].
  assert (0 < sin a) as Hsp by (apply sin_gt_0; lra).
  assert (1 <= / cos a) as Hinv.
  { rewrite <- Rinv_1 at 1. apply Rinv_le_contravar; lra. }
  unfold tan, Rdiv. nra.
Qed.

Lemma tan_upper (a : R) : 0 < a -> a <= 1 -> tan a < 2 * a.
Proof.
  intros H0 H1.
  assert (a < PI / 3) as HPI by (pose proof PI2_3_2; lra).
  assert (1 / 2 < cos a) as Hc.
  { rewrite <- cos_PI3. apply cos_decreasing_1; pose proof PI_RGT_0; lra. }
  pose proof (sin_lt_x a H0) as Hs.
  assert (0 < sin a) as Hsp by (apply sin_gt_0; pose proof PI_RGT_0; lra).
  assert (/ cos a < 2) as Hinv.
  { replace 2 with (/ (1 / 2)) by lra. apply Rinv_lt_contravar; lra. }
  assert (0 < / cos a) as Hip by (apply Rinv_0_lt_compat; lra).
  unfold tan, Rdiv. nra.
Qed.

(** An angle that passes the acceptance test is strictly inside the
    quarter turn on either side of the axis. *)
Lemma accepted_angle_bounds (theta q : R) :
  ~ Rabs theta > atan q -> - PI / 2 < theta < PI / 2.
Proof.
  intros Hacc. destruct (atan_bound q) as [_ Hub].
  unfold Rabs in Hacc. destruct (Rcase_abs theta); lra.
Qed.

Lemma accepted_cos_pos (theta q : R) : ~ Rabs theta > atan q -> 0 < cos theta.
Proof.
  intros Hacc. destruct (accepted_angle_bounds theta q Hacc). apply cos_gt_0; lra.
Qed.

(** Passing the acceptance test bounds the tangent by the aspect ratio. *)
Lemma accepted_tan_bound (theta q : R) : ~ Rabs theta > atan q -> Rabs (tan theta) <= q.
Proof.
  intros Hacc. destruct (accepted_angle_bounds theta q Hacc) as [Hlo Hhi].
  destruct (atan_bound q) as [Hqlo Hqhi].
  assert (- atan q <= theta <= atan q) as [Hl Hu]
      by (unfold Rabs in Hacc; destruct (Rcase_abs theta); lra).
  apply Rabs_le. split.
  - destruct (Req_dec_T theta (- atan q)) as [-> | Hne].
    + rewrite tan_neg, tan_atan. lra.
    + assert (tan (- atan q) < tan theta) as Hlt
          by (apply tan_increasing; lra).
      rewrite tan_neg, tan_atan in Hlt. lra.
  - destruct (Req_dec_T theta (atan q)) as [-> | Hne].
    + rewrite tan_atan. lra.
    + assert (tan theta < tan (atan q)) as Hlt
          by (apply tan_increasing; lra).
      rewrite tan_atan in Hlt. lra.
Qed.

(** The transverse displacement over the hole length is at most
    [length * |tan theta|]. *)
Lemma displacement_bound (theta c l : R) :
  0 < cos theta -> -1 <= c <= 1 -> 0 < l ->
  Rabs (sin theta * c * l / cos theta) <= l * Rabs (tan theta).
Proof.
  intros Hcos Hc Hl.
  replace (sin theta * c * l / cos theta) with (tan theta * (c * l))
    by (unfold tan; field; lra).
  rewrite Rabs_mult.
  assert (Rabs (c * l) <= l) as Hcl by (apply Rabs_le; nra).
  pose proof (Rabs_pos (tan theta)). nra.
Qed.

Lemma tape_random_sample_range (t : TapeRng.rng) :
  0 <= fst (TapeRng.random_sample t) < 1.
Proof.
  destruct t as [| z t]; cbn [TapeRng.random_sample fst]; [lra |].
  unfold TapeRng.unit_of.
  pose proof (Z.mod_pos_bound z 1000000000 ltac:(lia)) as [Hlo Hhi].
  apply IZR_le in Hlo. apply IZR_lt in Hhi.
  assert (0 < / 1000000000) as Hinv by (apply Rinv_0_lt_compat; lra).
  assert (1000000000 * / 1000000000 = 1) as Hone by (apply Rinv_r; lra).
  unfold Rdiv. split; nra.
Qed.

(** ** One iteration of the loop *)

Section TrialFacts.

Variable rng : Type.
Variable random_sample : rng -> R * rng.
Variable standard_normal : rng -> R * rng.

Local Abbreviation trace := (trace_photon rng random_sample standard_normal).
Local Abbreviation trial := (photon_trial rng random_sample standard_normal).
Local Abbreviation sample := (sample_photon rng random_sample).
Local Abbreviation detected := (detected_photon rng random_sample standard_normal).

(** An iteration whose divisions are defined, as a decision list. *)
Lemma trace_photon_unfold (self : SPECTSimulator) (theta phi x0 y0 : R) (g : rng) :
  hole_diameter (self_params self) + septal_thickness (self_params self) <> 0 ->
  2 * hole_length (self_params self) <> 0 ->
  trace self theta phi x0 y0 g
  = if Rgt_dec (Rabs theta)
         (atan (hole_diameter (self_params self) / (2 * hole_length (self_params self))))
    then inr (GeometricRejection, g)
    else if Rgt_dec (fst (random_sample g))
              (exp (- attenuation_coefficient (self_material self)
                    * _calculate_septal_path self theta phi / 10))
    then inr (SeptalAbsorption, snd (random_sample g))
    else inr (Detected (detected self theta phi x0 y0 g),
              snd (standard_normal (snd (random_sample g)))).
Proof.
  intros Hds Hl. unfold trace_photon. cbv zeta.
  do 3 (rewrite pydiv_nonzero by assumption; cbn [bind]).
  destruct (Rgt_dec _ _); [reflexivity |].
  unfold np_random_random, detected_photon.
  destruct (random_sample g) as [u g1]. cbn [fst snd].
  destruct (Rgt_dec _ _); [reflexivity |].
  unfold np_random_normal. destruct (standard_normal g1) as [z g2]. reflexivity.
Qed.

(** A photon within a millionth of a radian of the axis that passes the
    acceptance test is detected whatever number in [0,1] is drawn: its
    septal path is 0 and its survival probability is 1. *)
Lemma paraxial_photon_is_detected (self : SPECTSimulator) (theta phi x0 y0 : R) (g : rng) :
  valid_geometry (self_params self) ->
  Rabs theta < 1e-6 ->
  Rabs theta <= atan (hole_diameter (self_params self)
                      / (2 * hole_length (self_params self))) ->
  fst (random_sample g) <= 1 ->
  trace self theta phi x0 y0 g
  = inr (Detected (detected self theta phi x0 y0 g),
         snd (standard_normal (snd (random_sample g)))).
Proof.
  intros (Hd & Hl & Hs & _ & _) Hsmall Hacc Hu.
  rewrite trace_photon_unfold by lra.
  destruct (Rgt_dec _ _) as [Hrej | _]; [exfalso; lra |].
  unfold _calculate_septal_path.
  destruct (Rlt_dec _ _) as [_ | Hn]; [| contradiction].
  replace (- attenuation_coefficient (self_material self) * 0.0 / 10) with 0 by lra.
  rewrite exp_0. destruct (Rgt_dec _ _) as [Habs | _]; [exfalso; lra | reflexivity].
Qed.

(** C2 (as amended): with a valid geometry an iteration ends in one of the
    three outcomes; it is a geometric rejection if and only if [|theta|]
    exceeds [arctan (diameter / (2 * length))]; an accepted photon is
    septally absorbed if and only if the uniform draw exceeds
    [exp (- mu * path / 10)], where the septal path is 0 when
    [|theta| < 1e-6] and [septal * |tan theta|] otherwise; in the remaining
    case it is detected at [(x0 + dx * length / dz, y0 + dy * length / dz)]. *)
Theorem trial_outcome (self : SPECTSimulator) (theta phi x0 y0 : R) (g : rng) :
  valid_geometry (self_params self) ->
  let p := self_params self in
  let acceptance_angle := atan (hole_diameter p / (2 * hole_length p)) in
  let path := if Rlt_dec (Rabs theta) 1e-6 then 0
              else septal_thickness p * Rabs (tan theta) in
  let survival := exp (- attenuation_coefficient (self_material self) * path / 10) in
  let u := fst (random_sample g) in
  let dx := sin theta * cos phi in
  let dy := sin theta * sin phi in
  let dz := cos theta in
  exists o g',
    trace self theta phi x0 y0 g = inr (o, g')
    /\ (o = GeometricRejection <-> Rabs theta > acceptance_angle)
    /\ (o = SeptalAbsorption <-> Rabs theta <= acceptance_angle /\ u > survival)
    /\ ((exists e, o = Detected (Build_Photon (x0 + dx * hole_length p / dz)
                                              (y0 + dy * hole_length p / dz) e))
        <-> Rabs theta <= acceptance_angle /\ u <= survival).
Proof.
  intros Hv. pose proof Hv as (Hd & Hl & Hs & _ & _). cbv zeta.
  rewrite trace_photon_unfold by lra.
  unfold _calculate_septal_path.
  replace 0.0 with 0 by lra.
  destruct (Rgt_dec _ _) as [Hrej | Hacc].
  - eexists. eexists. split; [reflexivity |].
    split; [tauto |]. split; split; try (intros [He _]; lra).
    + discriminate.
    + intros [e He]. discriminate.
  - destruct (Rgt_dec _ _) as [Habs | Hsurv].
    + eexists. eexists. split; [reflexivity |].
      split; [split; [discriminate | contradiction] |].
      split; [split; [intros _; lra | reflexivity] |].
      split; [intros [e He]; discriminate | intros [_ Hle]; lra].
    + eexists. eexists. split; [reflexivity |].
      split; [split; [discriminate | contradiction] |].
      split; [split; [discriminate | intros [_ Hgt]; contradiction] |].
      split; [intros _; lra |]. intros _. eexists. reflexivity.
Qed.

(** An iteration that returns has performed its three Python divisions. *)
Lemma trace_photon_returns_inv (self : SPECTSimulator) (theta phi x0 y0 : R) (g g' : rng)
    (o : outcome) :
  trace self theta phi x0 y0 g = inr (o, g') ->
  hole_diameter (self_params self) + septal_thickness (self_params self) <> 0
  /\ 2 * hole_length (self_params self) <> 0.
Proof.
  unfold trace_photon, pydiv. cbv zeta.
  destruct (Req_dec_T (hole_diameter _ + septal_thickness _) 0) as [E | NE];
    [discriminate |].
  cbn [bind ret].
  destruct (Req_dec_T (2 * hole_length _) 0) as [E | NE']; [discriminate |].
  intros _. split; assumption.
Qed.

(** With a valid geometry an iteration ends in an outcome; and in every
    iteration that ends in an outcome, whatever the geometry, a photon
    whose axial direction cosine [dz = cos theta] is not positive is a
    geometric rejection that consumes no further draw, so that a detected
    photon has [dz > 0] and its position is the pair of quotients by that
    positive [dz]. *)
Lemma trace_photon_axial_cosine
    (self : SPECTSimulator) (theta phi x0 y0 : R) (g : rng) :
  (valid_geometry (self_params self) ->
   exists o g', trace self theta phi x0 y0 g = inr (o, g'))
  /\ (forall o g',
      trace self theta phi x0 y0 g = inr (o, g') ->
      (cos theta <= 0 -> o = GeometricRejection /\ g' = g)
      /\ (forall ph, o = Detected ph ->
          0 < cos theta
          /\ x ph = x0 + sin theta * cos phi * hole_length (self_params self) / cos theta
          /\ y ph = y0 + sin theta * sin phi * hole_length (self_params self) / cos theta)).
Proof.
  split.
  - intros Hv.
    exact (trace_photon_total rng random_sample standard_normal
             self theta phi x0 y0 g Hv).
  - intros o g' Htrace.
    destruct (trace_photon_returns_inv _ _ _ _ _ _ _ _ Htrace) as [Hds Hl].
    rewrite trace_photon_unfold in Htrace by assumption.
    destruct (Rgt_dec _ _) as [Hrej | Hacc].
    + injection Htrace as <- <-. split; [auto | discriminate].
    + pose proof (accepted_cos_pos _ _ Hacc) as Hcos.
      destruct (Rgt_dec _ _) as [Habs | Hsurv]; injection Htrace as <- <-.
      * split; [lra | discriminate].
      * split; [lra |]. intros ph [= <-].
        split; [exact Hcos |]. split; reflexivity.
Qed.

(** The range of [np.random.uniform] when the primitive draw is in [0,1). *)
Lemma np_random_uniform_range (low high : R) (g : rng) :
  (forall g0, 0 <= fst (random_sample g0) < 1) -> low <= high ->
  low <= fst (np_random_uniform rng random_sample low high g) <= high.
Proof.
  intros Hrange Hle. unfold np_random_uniform.
  pose proof (Hrange g) as Hu. destruct (random_sample g) as [u g1].
  cbn [fst] in *. nra.
Qed.

(** C10: with a valid geometry and a generator whose uniform draws are in
    [0,1), a detected photon passed the acceptance test with
    [|tan theta| <= diameter / (2 * length)], its final position is within
    half a hole diameter of its entry position in each transverse axis, and
    it lies within the detector face extended by half a hole diameter on
    each side. *)
Theorem detected_position_within_half_hole
    (self : SPECTSimulator) (g g1 g' : rng) (theta phi x0 y0 : R) (ph : Photon) :
  valid_geometry (self_params self) ->
  (forall g0, 0 <= fst (random_sample g0) < 1) ->
  sample self g = (theta, phi, x0, y0, g1) ->
  trial self g = inr (Detected ph, g') ->
  let d := hole_diameter (self_params self) in
  Rabs (tan theta) <= d / (2 * hole_length (self_params self))
  /\ Rabs (x ph - x0) <= d / 2
  /\ Rabs (y ph - y0) <= d / 2
  /\ Rabs (x ph) <= detector_width self / 2 + d / 2
  /\ Rabs (y ph) <= detector_height self / 2 + d / 2.
Proof.
  intros Hv Hrange Hsample Htrial d.
  pose proof Hv as (Hd & Hl & Hs & Hnx & Hny).
  assert (0 <= detector_width self /\ 0 <= detector_height self) as [Hw Hh].
  { unfold detector_width, detector_height.
    apply IZR_lt in Hnx. apply IZR_lt in Hny. split; nra. }
  assert (- (detector_width self / 2) <= x0 <= detector_width self / 2
          /\ - (detector_height self / 2) <= y0 <= detector_height self / 2)
    as [Hx0 Hy0].
  { unfold sample_photon in Hsample.
    destruct (np_random_uniform _ _ (- PI / 6) _ g) as [th ga].
    destruct (np_random_uniform _ _ 0 _ ga) as [ph0 gb].
    pose proof (np_random_uniform_range (- detector_width self / 2)
                  (detector_width self / 2) gb Hrange ltac:(lra)) as Hx.
    destruct (np_random_uniform _ _ (- detector_width self / 2) _ gb) as [xa gc].
    pose proof (np_random_uniform_range (- detector_height self / 2)
                  (detector_height self / 2) gc Hrange ltac:(lra)) as Hy.
    destruct (np_random_uniform _ _ (- detector_height self / 2) _ gc) as [ya gd].
    cbn [fst] in Hx, Hy. injection Hsample as <- <- <- <- <-. lra. }
  unfold photon_trial in Htrial. rewrite Hsample in Htrial.
  rewrite trace_photon_unfold in Htrial by lra.
  destruct (Rgt_dec _ _) as [Hrej | Hacc]; [discriminate |].
  destruct (Rgt_dec _ _) as [Habs | Hsurv]; [discriminate |].
  injection Htrial as <- <-.
  pose proof (accepted_cos_pos _ _ Hacc) as Hcos.
  pose proof (accepted_tan_bound _ _ Hacc) as Htan. fold d in Htan.
  pose proof (displacement_bound theta (cos phi) _ Hcos (COS_bound phi) Hl) as Hdx.
  pose proof (displacement_bound theta (sin phi) _ Hcos (SIN_bound phi) Hl) as Hdy.
  assert (hole_length (self_params self) * Rabs (tan theta) <= d / 2) as Hhalf.
  { replace (d / 2) with (hole_length (self_params self)
                          * (d / (2 * hole_length (self_params self))))
      by (field; lra).
    apply Rmult_le_compat_l; lra. }
  cbn [detected_photon x y].
  set (ox := sin theta * cos phi * hole_length (self_params self) / cos theta) in *.
  set (oy := sin theta * sin phi * hole_length (self_params self) / cos theta) in *.
  replace (x0 + ox - x0) with ox by lra. replace (y0 + oy - y0) with oy by lra.
  assert (Rabs ox <= d / 2) as Hox by lra.
  assert (Rabs oy <= d / 2) as Hoy by lra.
  split; [exact Htan |]. split; [exact Hox |]. split; [exact Hoy |].
  assert (- (d / 2) <= ox <= d / 2) as Hbx
      by (unfold Rabs in Hox; destruct (Rcase_abs ox); lra).
  assert (- (d / 2) <= oy <= d / 2) as Hby
      by (unfold Rabs in Hoy; destruct (Rcase_abs oy); lra).
  split; apply Rabs_le; lra.
Qed.

End TrialFacts.

(** ** The iteration on the scripted generator *)

Lemma on_axis_theta : - PI / 6 + (PI / 6 - - PI / 6) * TapeRng.unit_of 500000000 = 0.
Proof.
  unfold TapeRng.unit_of.
  change (500000000 mod 1000000000)%Z with 500000000%Z. lra.
Qed.

Lemma main_acceptance_angle (theta : R) :
  0 <= theta -> theta <= 1e-2 ->
  Rabs theta <= atan (hole_diameter main_params / (2 * hole_length main_params)).
Proof.
  intros H0 H1. rewrite Rabs_pos_eq by exact H0.
  cbn [main_params CollimatorParams_new hole_diameter hole_length].
  destruct (Req_dec_T theta 0) as [-> | Hne].
  - rewrite <- atan_0. left. apply atan_increasing. lra.
  - assert (0 < theta) as Hpos by lra.
    pose proof (tan_upper theta Hpos ltac:(lra)) as Htan.
    rewrite <- (atan_tan theta) at 1 by (pose proof PI2_1; lra).
    left. apply atan_increasing. lra.
Qed.

(** The first iteration on [on_axis_tape] detects its photon. *)
Lemma on_axis_trial :
  exists theta phi x0 y0 g1 ph g',
    sample_photon TapeRng.rng TapeRng.random_sample main_simulator on_axis_tape
    = (theta, phi, x0, y0, g1)
    /\ photon_trial TapeRng.rng TapeRng.random_sample TapeRng.standard_normal
         main_simulator on_axis_tape
       = inr (Detected ph, g').
Proof.
  do 7 eexists. split.
  - unfold sample_photon, np_random_uniform, on_axis_tape.
    cbn [TapeRng.random_sample]. reflexivity.
  - unfold photon_trial, sample_photon, np_random_uniform, on_axis_tape.
    cbn [TapeRng.random_sample]. rewrite on_axis_theta.
    apply paraxial_photon_is_detected.
    + exact main_params_valid.
    + rewrite Rabs_R0. lra.
    + apply main_acceptance_angle; lra.
    + pose proof (tape_random_sample_range [0; 0]%Z). lra.
Qed.

Lemma trial_outcome_witness :
  let self := main_simulator in
  let theta := 0 in
  let phi := 0 in
  let x0 := 0 in
  let y0 := 0 in
  let g := near_one_tape in
  let p := self_params self in
  let acceptance_angle := atan (hole_diameter p / (2 * hole_length p)) in
  let path := if Rlt_dec (Rabs theta) 1e-6 then 0
              else septal_thickness p * Rabs (tan theta) in
  let survival := exp (- attenuation_coefficient (self_material self) * path / 10) in
  let u := fst (TapeRng.random_sample g) in
  let dx := sin theta * cos phi in
  let dy := sin theta * sin phi in
  let dz := cos theta in
  exists o g',
    trace_photon TapeRng.rng TapeRng.random_sample TapeRng.standard_normal
      self theta phi x0 y0 g = inr (o, g')
    /\ (o = GeometricRejection <-> Rabs theta > acceptance_angle)
    /\ (o = SeptalAbsorption <-> Rabs theta <= acceptance_angle /\ u > survival)
    /\ ((exists e, o = Detected (Build_Photon (x0 + dx * hole_length p / dz)
                                              (y0 + dy * hole_length p / dz) e))
        <-> Rabs theta <= acceptance_angle /\ u <= survival).
Proof.
  apply (trial_outcome TapeRng.rng TapeRng.random_sample TapeRng.standard_normal
           main_simulator 0 0 0 0 near_one_tape).
  exact main_params_valid.
Defined.

(** C2 (as stated) fails: in the configuration of [main] a photon at
    [theta = 5e-7] passes the acceptance test, the uniform draw 0.999999999
    exceeds [exp (- mu * (septal * |tan theta|) / 10)], and yet the photon is
    detected, not septally absorbed. *)
Lemma paraxial_photon_survives_counterexample :
  let theta := 5e-7 in
  let u := fst (TapeRng.random_sample near_one_tape) in
  Rabs theta <= atan (hole_diameter main_params / (2 * hole_length main_params))
  /\ 0 <= u < 1
  /\ u > exp (- attenuation_coefficient (self_material main_simulator)
              * (septal_thickness main_params * Rabs (tan theta)) / 10)
  /\ exists ph g',
       trace_photon TapeRng.rng TapeRng.random_sample TapeRng.standard_normal
         main_simulator theta 0 0 0 near_one_tape
       = inr (Detected ph, g').
Proof.
  cbv zeta.
  assert (Rabs 5e-7 <= atan (hole_diameter main_params / (2 * hole_length main_params)))
    as Hacc by (apply main_acceptance_angle; lra).
  pose proof (tape_random_sample_range near_one_tape) as Hu.
  split; [exact Hacc |]. split; [exact Hu |]. split.
  - cbn [near_one_tape TapeRng.random_sample fst]. unfold TapeRng.unit_of.
    change (999999999 mod 1000000000)%Z with 999999999%Z.
    cbn [main_simulator self_material attenuation_coefficient main_params
         CollimatorParams_new septal_thickness].
    rewrite (Rabs_pos_eq (tan 5e-7))
      by (left; apply tan_gt_0; [lra | pose proof PI2_1; lra]).
    pose proof (tan_lower 5e-7 ltac:(lra) ltac:(lra)) as Htan.
    set (t := tan 5e-7) in *.
    match goal with
    | |- _ > exp ?a => replace a with (- (0.46 * t)) by lra
    end.
    pose proof (exp_ineq1_le (0.46 * t)) as Hexp.
    pose proof (exp_pos (- (0.46 * t))) as Hpos.
    assert (exp (- (0.46 * t)) * exp (0.46 * t) = 1) as Hprod
        by (rewrite <- exp_plus; replace (- (0.46 * t) + 0.46 * t) with 0 by lra;
            apply exp_0).
    assert (4e-7 <= t) as Hlow by (simpl in Htan; lra).
    set (E := exp (- (0.46 * t))) in *.
    assert (E * (1 + 0.46 * t) <= 1) as Hone by nra.
    assert (E * (1 + 0.46 * 4e-7) <= E * (1 + 0.46 * t)) as Hmon by nra.
    lra.
  - do 2 eexists. apply paraxial_photon_is_detected.
    + exact main_params_valid.
    + rewrite Rabs_pos_eq; lra.
    + exact Hacc.
    + lra.
Qed.

Lemma detected_position_within_half_hole_witness :
  exists theta phi x0 y0 g1 ph g',
    sample_photon TapeRng.rng TapeRng.random_sample main_simulator on_axis_tape
    = (theta, phi, x0, y0, g1)
    /\ photon_trial TapeRng.rng TapeRng.random_sample TapeRng.standard_normal
         main_simulator on_axis_tape
       = inr (Detected ph, g')
    /\ Rabs (tan theta)
       <= hole_diameter main_params / (2 * hole_length main_params)
    /\ Rabs (x ph - x0) <= hole_diameter main_params / 2
    /\ Rabs (y ph - y0) <= hole_diameter main_params / 2
    /\ Rabs (x ph) <= detector_width main_simulator / 2 + hole_diameter main_params / 2
    /\ Rabs (y ph) <= detector_height main_simulator / 2 + hole_diameter main_params / 2.
Proof.
  destruct on_axis_trial as (theta & phi & x0 & y0 & g1 & ph & g' & Hsample & Htrial).
  exists theta, phi, x0, y0, g1, ph, g'.
  split; [exact Hsample |]. split; [exact Htrial |].
  apply (detected_position_within_half_hole
           TapeRng.rng TapeRng.random_sample TapeRng.standard_normal
           main_simulator on_axis_tape g1 g' theta phi x0 y0 ph).
  - exact main_params_valid.
  - exact tape_random_sample_range.
  - exact Hsample.
  - exact Htrial.
Defined.

(** * Further properties of the transport kernel *)

Section RunFacts.

Variable rng : Type.
Variable random_sample : rng -> R * rng.
Variable standard_normal : rng -> R * rng.

Local Abbreviation trace := (trace_photon rng random_sample standard_normal).
Local Abbreviation trial := (photon_trial rng random_sample standard_normal).
Local Abbreviation trials := (run_trials rng random_sample standard_normal).
Local Abbreviation simulate :=
  (simulate_photon_transport rng random_sample standard_normal).

Lemma acc_merge_init_r (a : accumulators) : acc_merge a acc_init = a.
Proof.
  destruct a as [ps s g]. unfold acc_merge. cbn.
  now rewrite app_nil_r, !Z.add_0_r.
Qed.

Lemma record_outcome_merge (a b : accumulators) (o : outcome) :
  record_outcome (acc_merge a b) o = acc_merge a (record_outcome b o).
Proof.
  destruct o; unfold acc_merge; cbn; f_equal; try lia. now rewrite app_assoc.
Qed.

(** The loop started from accumulators [acc_merge a b] does what it does
    from [b], with [a] in front. *)
Lemma run_trials_merge (self : SPECTSimulator) (n : nat) :
  forall (a b : accumulators) (g : rng),
  trials self n (acc_merge a b) g
  = '(b', g') <- trials self n b g ;; ret (acc_merge a b', g').
Proof.
  induction n as [| n IH]; intros a b g; [reflexivity |].
  cbn [run_trials]. destruct (trial self g) as [e | [o g1]]; [reflexivity |].
  cbn [bind]. rewrite record_outcome_merge. apply IH.
Qed.

(** [n + m] iterations are [n] iterations followed by [m] more. *)
Lemma run_trials_add (self : SPECTSimulator) (n m : nat) :
  forall (acc : accumulators) (g : rng),
  trials self (n + m) acc g
  = '(acc1, g1) <- trials self n acc g ;; trials self m acc1 g1.
Proof.
  induction n as [| n IH]; intros acc g; [reflexivity |].
  cbn [Nat.add run_trials]. destruct (trial self g) as [e | [o g1]]; [reflexivity |].
  cbn [bind]. apply IH.
Qed.

(** X1: a run of [N + M] photons is a run of [N] photons followed by a run
    of [M] photons from the generator state the first one leaves: the
    detected photons are concatenated in order, the counters are added, and
    an exception of either stretch is the exception of the whole run. *)
Theorem simulate_splits (self : SPECTSimulator) (N M : Z) (d d1 d2 : R) (g : rng) :
  (0 <= N)%Z -> (0 <= M)%Z ->
  simulate self (N + M) d g
  = '(r1, g1) <- simulate self N d1 g ;;
    '(r2, g2) <- simulate self M d2 g1 ;;
    ret (merge_results r1 r2, g2).
Proof.
  intros HN HM. unfold simulate_photon_transport.
  rewrite (Z2Nat.inj_add N M HN HM), run_trials_add.
  destruct (trials self (Z.to_nat N) acc_init g) as [e | [a1 g1]]; [reflexivity |].
  cbn [bind ret]. rewrite <- (acc_merge_init_r a1) at 1. rewrite run_trials_merge.
  destruct (trials self (Z.to_nat M) acc_init g1) as [e | [a2 g2]]; [reflexivity |].
  cbn [bind ret]. unfold merge_results, acc_merge. cbn.
  do 2 f_equal. f_equal. rewrite length_app. lia.
Qed.

(** A property of the accumulators that every outcome the iteration can
    produce preserves is kept by the loop. *)
Lemma run_trials_invariant (self : SPECTSimulator)
    (Q : outcome -> Prop) (P : accumulators -> Prop) :
  (forall g o g', trial self g = inr (o, g') -> Q o) ->
  (forall acc o, P acc -> Q o -> P (record_outcome acc o)) ->
  forall (n : nat) (acc acc' : accumulators) (g g' : rng),
  trials self n acc g = inr (acc', g') -> P acc -> P acc'.
Proof.
  intros HQ Hstep. induction n as [| n IH]; intros acc acc' g g' Hrun Hacc.
  - injection Hrun as <- _. exact Hacc.
  - cbn [run_trials] in Hrun.
    destruct (trial self g) as [e | [o g1]] eqn:Ht; [discriminate |].
    cbn [bind] in Hrun. apply (IH _ _ _ _ Hrun). apply Hstep; [exact Hacc |].
    exact (HQ _ _ _ Ht).
Qed.

(** The iteration raises exactly when one of its Python divisors is zero. *)
Lemma trace_photon_raises (self : SPECTSimulator) (theta phi x0 y0 : R) (g : rng) :
  hole_diameter (self_params self) + septal_thickness (self_params self) = 0
  \/ hole_length (self_params self) = 0 ->
  trace self theta phi x0 y0 g = inl ZeroDivisionError.
Proof.
  intros Hz. unfold trace_photon, pydiv. cbv zeta.
  destruct (Req_dec_T (hole_diameter _ + septal_thickness _) 0) as [E | NE];
    [reflexivity |].
  cbn [bind ret].
  destruct (Req_dec_T (2 * hole_length _) 0) as [E | NE']; [reflexivity |].
  exfalso. destruct Hz as [Hz | Hz]; [contradiction | lra].
Qed.

Lemma trace_photon_returns (self : SPECTSimulator) (theta phi x0 y0 : R) (g : rng) :
  hole_diameter (self_params self) + septal_thickness (self_params self) <> 0 ->
  hole_length (self_params self) <> 0 ->
  exists o g', trace self theta phi x0 y0 g = inr (o, g').
Proof.
  intros Hds Hl.
  rewrite (trace_photon_unfold rng random_sample standard_normal) by lra.
  destruct (Rgt_dec _ _); [eauto |]. destruct (Rgt_dec _ _); eauto.
Qed.

Lemma run_trials_returns (self : SPECTSimulator) :
  hole_diameter (self_params self) + septal_thickness (self_params self) <> 0 ->
  hole_length (self_params self) <> 0 ->
  forall (n : nat) (acc : accumulators) (g : rng),
  exists acc' g', trials self n acc g = inr (acc', g').
Proof.
  intros Hds Hl. induction n as [| n IH]; intros acc g; [eexists; eexists; reflexivity |].
  cbn [run_trials]. unfold photon_trial.
  destruct (sample_photon _ _ self g) as [[[[theta phi] x0] y0] g1].
  destruct (trace_photon_returns self theta phi x0 y0 g1 Hds Hl) as (o & g2 & ->).
  cbn [bind]. apply IH.
Qed.

(** X2: a run raises if and only if it performs at least one iteration on a
    geometry in which [hole_diameter + septal_thickness] or [hole_length] is
    zero, and what it raises then is [ZeroDivisionError], in its first
    iteration.  In particular a run of no photons returns whatever the
    geometry. *)
Theorem simulate_raises_iff (self : SPECTSimulator) (N : Z) (d : R) (g : rng) :
  let p := self_params self in
  ((exists e, simulate self N d g = inl e)
   <-> (1 <= N)%Z
       /\ (hole_diameter p + septal_thickness p = 0 \/ hole_length p = 0))
  /\ (forall e, simulate self N d g = inl e -> e = ZeroDivisionError).
Proof.
  cbv zeta. unfold simulate_photon_transport.
  destruct (Req_dec_T (hole_diameter (self_params self)
                       + septal_thickness (self_params self)) 0) as [Hds | Hds];
    [| destruct (Req_dec_T (hole_length (self_params self)) 0) as [Hl | Hl]].
  3:{ destruct (run_trials_returns self Hds Hl (Z.to_nat N) acc_init g)
        as (acc & g' & ->).
      cbn [bind ret]. split; [split |].
      - intros [e He]. discriminate.
      - intros [_ [Hz | Hz]]; contradiction.
      - intros e He. discriminate. }
  all: destruct (Z.to_nat N) as [| n] eqn:En.
  all: cbn [run_trials bind ret].
  all: try (split; [split |];
            [ intros [e He]; discriminate
            | intros [HN _]; lia
            | intros e He; discriminate ]).
  all: unfold photon_trial;
    destruct (sample_photon _ _ self g) as [[[[theta phi] x0] y0] g1];
    rewrite trace_photon_raises by auto; cbn [bind];
    (split; [split |];
     [ intros _; split; [lia | auto]
     | intros _; eexists; reflexivity
     | intros e [= <-]; reflexivity ]).
Qed.

End RunFacts.

Section KernelFacts.

Variable rng : Type.
Variable random_sample : rng -> R * rng.
Variable standard_normal : rng -> R * rng.

Local Abbreviation trace := (trace_photon rng random_sample standard_normal).
Local Abbreviation trial := (photon_trial rng random_sample standard_normal).
Local Abbreviation trials := (run_trials rng random_sample standard_normal).
Local Abbreviation simulate :=
  (simulate_photon_transport rng random_sample standard_normal).

Hypothesis random_sample_range : forall g, 0 <= fst (random_sample g) < 1.

(** Without septal thickness the septal path is 0 at every angle, the
    survival probability is 1, and no draw below 1 exceeds it. *)
Lemma no_septa_trial (self : SPECTSimulator) (g g' : rng) (o : outcome) :
  septal_thickness (self_params self) = 0 ->
  trial self g = inr (o, g') -> o <> SeptalAbsorption.
Proof.
  intros Hs. unfold photon_trial.
  destruct (sample_photon _ _ self g) as [[[[theta phi] x0] y0] g1].
  intros Htrace.
  destruct (trace_photon_returns_inv _ _ _ _ _ _ _ _ _ _ _ Htrace) as [Hds Hl].
  rewrite (trace_photon_unfold rng random_sample standard_normal) in Htrace
    by assumption.
  destruct (Rgt_dec _ _) as [_ | _]; [injection Htrace as <- _; discriminate |].
  destruct (Rgt_dec _ _) as [Habs | _]; [| injection Htrace as <- _; discriminate].
  exfalso. unfold _calculate_septal_path in Habs. rewrite Hs in Habs.
  pose proof (random_sample_range g1) as Hu.
  destruct (Rlt_dec _ _);
    match type of Habs with
    | _ > exp ?a => replace a with 0 in Habs by lra
    end;
    rewrite exp_0 in Habs; lra.
Qed.

(** X3: with a valid geometry whose septal thickness is 0 and uniform
    draws in [0,1), a run returns and its septal penetration count is 0:
    every photon that passes the acceptance test is detected. *)
Theorem no_septa_no_absorption (self : SPECTSimulator) (N : Z) (d : R) (g : rng) :
  valid_geometry (self_params self) ->
  septal_thickness (self_params self) = 0 ->
  exists r g',
    simulate self N d g = inr (r, g')
    /\ septal_penetration r = 0%Z
    /\ (detected_count r + geometric_rejection r = Z.of_nat (Z.to_nat N))%Z.
Proof.
  intros Hv Hs.
  destruct (run_trials_accounted rng random_sample standard_normal self Hv
              (Z.to_nat N) acc_init g) as (acc & g' & Hrun & Hacc).
  assert (acc_septal_penetration_count acc = 0%Z) as Hzero.
  { apply (run_trials_invariant rng random_sample standard_normal self
             (fun o => o <> SeptalAbsorption)
             (fun a => acc_septal_penetration_count a = 0%Z))
      with (n := Z.to_nat N) (acc := acc_init) (g := g) (g' := g').
    - intros g0 o g0' Ht. exact (no_septa_trial self g0 g0' o Hs Ht).
    - intros a o Ha Ho. destruct o; cbn; try assumption. contradiction.
    - exact Hrun.
    - reflexivity. }
  unfold simulate_photon_transport. rewrite (bind_inr _ _ _ Hrun).
  eexists; eexists; split; [reflexivity |]. cbn.
  split; [exact Hzero |]. unfold accounted in Hacc. cbn in Hacc. lia.
Qed.

(** A detected photon lies within the detector face extended by half a
    hole diameter. *)
Lemma trial_detected_in_face (self : SPECTSimulator) (g g' : rng) (ph : Photon) :
  valid_geometry (self_params self) ->
  trial self g = inr (Detected ph, g') ->
  Rabs (x ph) <= detector_width self / 2 + hole_diameter (self_params self) / 2
  /\ Rabs (y ph) <= detector_height self / 2 + hole_diameter (self_params self) / 2.
Proof.
  intros (Hd & Hl & Hs & Hnx & Hny). unfold photon_trial, sample_photon.
  destruct (np_random_uniform _ _ (- PI / 6) _ g) as [theta ga].
  destruct (np_random_uniform _ _ 0 _ ga) as [phi gb].
  assert (0 <= detector_width self /\ 0 <= detector_height self) as [Hw Hh].
  { unfold detector_width, detector_height.
    apply IZR_lt in Hnx. apply IZR_lt in Hny. split; nra. }
  pose proof (np_random_uniform_range rng random_sample
                (- detector_width self / 2) (detector_width self / 2) gb
                random_sample_range ltac:(lra)) as Hx.
  destruct (np_random_uniform _ _ (- detector_width self / 2) _ gb) as [x0 gc].
  pose proof (np_random_uniform_range rng random_sample
                (- detector_height self / 2) (detector_height self / 2) gc
                random_sample_range ltac:(lra)) as Hy.
  destruct (np_random_uniform _ _ (- detector_height self / 2) _ gc) as [y0 gd].
  cbn [fst] in Hx, Hy. intros Htrace.
  rewrite (trace_photon_unfold rng random_sample standard_normal) in Htrace by lra.
  destruct (Rgt_dec _ _) as [_ | Hacc]; [discriminate |].
  destruct (Rgt_dec _ _) as [_ | _]; [discriminate |].
  injection Htrace as <- _. cbn [detected_photon x y].
  pose proof (accepted_cos_pos _ _ Hacc) as Hcos.
  pose proof (accepted_tan_bound _ _ Hacc) as Htan.
  pose proof (displacement_bound theta (cos phi) _ Hcos (COS_bound phi) Hl) as Hdx.
  pose proof (displacement_bound theta (sin phi) _ Hcos (SIN_bound phi) Hl) as Hdy.
  assert (hole_length (self_params self) * Rabs (tan theta)
          <= hole_diameter (self_params self) / 2) as Hhalf.
  { replace (hole_diameter (self_params self) / 2)
      with (hole_length (self_params self)
            * (hole_diameter (self_params self) / (2 * hole_length (self_params self))))
      by (field; lra).
    apply Rmult_le_compat_l; lra. }
  set (ox := sin theta * cos phi * hole_length (self_params self) / cos theta) in *.
  set (oy := sin theta * sin phi * hole_length (self_params self) / cos theta) in *.
  assert (Rabs ox <= hole_diameter (self_params self) / 2) as Hox by lra.
  assert (Rabs oy <= hole_diameter (self_params self) / 2) as Hoy by lra.
  assert (- (hole_diameter (self_params self) / 2) <= ox
          <= hole_diameter (self_params self) / 2) as Hbx
      by (unfold Rabs in Hox; destruct (Rcase_abs ox); lra).
  assert (- (hole_diameter (self_params self) / 2) <= oy
          <= hole_diameter (self_params self) / 2) as Hby
      by (unfold Rabs in Hoy; destruct (Rcase_abs oy); lra).
  split; apply Rabs_le; lra.
Qed.

(** The photons accumulated by the loop all lie within the extended face. *)
Lemma run_trials_photons_in_face (self : SPECTSimulator) (n : nat)
    (acc : accumulators) (g g' : rng) :
  valid_geometry (self_params self) ->
  trials self n acc_init g = inr (acc, g') ->
  Forall (fun ph =>
            Rabs (x ph) <= detector_width self / 2
                           + hole_diameter (self_params self) / 2
            /\ Rabs (y ph) <= detector_height self / 2
                              + hole_diameter (self_params self) / 2)
         (acc_detected_photons acc).
Proof.
  intros Hv Hrun.
  apply (run_trials_invariant rng random_sample standard_normal self
           (fun o => forall ph, o = Detected ph ->
              Rabs (x ph) <= detector_width self / 2
                             + hole_diameter (self_params self) / 2
              /\ Rabs (y ph) <= detector_height self / 2
                                + hole_diameter (self_params self) / 2)
           (fun a => Forall (fun ph =>
              Rabs (x ph) <= detector_width self / 2
                             + hole_diameter (self_params self) / 2
              /\ Rabs (y ph) <= detector_height self / 2
                                + hole_diameter (self_params self) / 2)
              (acc_detected_photons a)))
    with (n := n) (acc := acc_init) (g := g) (g' := g').
  - intros g0 o g0' Ht ph ->. exact (trial_detected_in_face self g0 g0' ph Hv Ht).
  - intros a o Ha Ho. destruct o as [| | ph]; cbn; try assumption.
    apply Forall_app. split; [exact Ha |]. constructor; [| constructor].
    now apply Ho.
  - exact Hrun.
  - constructor.
Qed.

(** X4: with a valid geometry and uniform draws in [0,1), a run returns and
    every photon it records lies within the detector face extended by half
    a hole diameter on each side. *)
Theorem recorded_photons_within_extended_face
    (self : SPECTSimulator) (N : Z) (d : R) (g : rng) :
  valid_geometry (self_params self) ->
  exists r g',
    simulate self N d g = inr (r, g')
    /\ Forall (fun ph =>
                 Rabs (x ph) <= detector_width self / 2
                                + hole_diameter (self_params self) / 2
                 /\ Rabs (y ph) <= detector_height self / 2
                                   + hole_diameter (self_params self) / 2)
              (detected_photons r).
Proof.
  intros Hv.
  destruct (run_trials_accounted rng random_sample standard_normal self Hv
              (Z.to_nat N) acc_init g) as (acc & g' & Hrun & _).
  unfold simulate_photon_transport. rewrite (bind_inr _ _ _ Hrun).
  eexists; eexists; split; [reflexivity |]. cbn [detected_photons].
  exact (run_trials_photons_in_face self _ _ _ _ Hv Hrun).
Qed.

End KernelFacts.

Section AcceptanceFacts.

Variable rng : Type.
Variable random_sample : rng -> R * rng.
Variable standard_normal : rng -> R * rng.

Local Abbreviation trace := (trace_photon rng random_sample standard_normal).

Lemma atan_monotone (a b : R) : a <= b -> atan a <= atan b.
Proof.
  intros [Hlt | ->]; [left; now apply atan_increasing | lra].
Qed.

(** X5: the acceptance test only depends on the aspect ratio
    [hole_diameter / hole_length], monotonically: a photon that a valid
    geometry rejects at angle [theta] is rejected at the same angle by
    every valid geometry whose aspect ratio is not larger (narrower or
    longer holes), whatever its entry position and the generator state. *)
Theorem narrower_holes_reject_more
    (self1 self2 : SPECTSimulator) (theta phi1 phi2 x1 y1 x2 y2 : R) (g1 g2 g2' : rng) :
  valid_geometry (self_params self1) ->
  valid_geometry (self_params self2) ->
  hole_diameter (self_params self1) * hole_length (self_params self2)
  <= hole_diameter (self_params self2) * hole_length (self_params self1) ->
  trace self2 theta phi2 x2 y2 g2 = inr (GeometricRejection, g2') ->
  trace self1 theta phi1 x1 y1 g1 = inr (GeometricRejection, g1).
Proof.
  intros (Hd1 & Hl1 & Hs1 & _ & _) (Hd2 & Hl2 & Hs2 & _ & _) Hratio Hrej.
  rewrite (trace_photon_unfold rng random_sample standard_normal) in Hrej by lra.
  rewrite (trace_photon_unfold rng random_sample standard_normal) by lra.
  destruct (Rgt_dec (Rabs theta) (atan (hole_diameter (self_params self2) / _)))
    as [Hgt | _].
  2:{ destruct (Rgt_dec _ _); discriminate. }
  assert (hole_diameter (self_params self1) / (2 * hole_length (self_params self1))
          <= hole_diameter (self_params self2) / (2 * hole_length (self_params self2)))
    as Hq.
  { apply Rmult_le_reg_r with (2 * hole_length (self_params self1)
                               * (2 * hole_length (self_params self2))); [nra |].
    replace (hole_diameter (self_params self1) / (2 * hole_length (self_params self1))
             * (2 * hole_length (self_params self1)
                * (2 * hole_length (self_params self2))))
      with (2 * (hole_diameter (self_params self1) * hole_length (self_params self2)))
      by (field; lra).
    replace (hole_diameter (self_params self2) / (2 * hole_length (self_params self2))
             * (2 * hole_length (self_params self1)
                * (2 * hole_length (self_params self2))))
      with (2 * (hole_diameter (self_params self2) * hole_length (self_params self1)))
      by (field; lra).
    lra. }
  pose proof (atan_monotone _ _ Hq) as Hatan.
  destruct (Rgt_dec _ _) as [_ | Hn]; [reflexivity | exfalso; lra].
Qed.

End AcceptanceFacts.

Lemma thin_simulator_valid : valid_geometry (self_params thin_simulator).
Proof.
  unfold valid_geometry, thin_simulator, CollimatorParams_new; simpl.
  repeat split; try lra; lia.
Qed.

Lemma wide_simulator_valid : valid_geometry (self_params wide_simulator).
Proof.
  unfold valid_geometry, wide_simulator, CollimatorParams_new; simpl.
  repeat split; try lra; lia.
Qed.

(** A photon travelling backwards is rejected by the wide holes too. *)
Lemma wide_rejects_backward :
  trace_photon TapeRng.rng TapeRng.random_sample TapeRng.standard_normal
    wide_simulator PI 0 0 0 near_one_tape
  = inr (GeometricRejection, near_one_tape).
Proof.
  pose proof wide_simulator_valid as (Hd & Hl & Hs & _ & _).
  rewrite trace_photon_unfold by lra.
  destruct (Rgt_dec _ _) as [_ | Hn]; [reflexivity |].
  exfalso. apply Hn. rewrite Rabs_pos_eq by (pose proof PI_RGT_0; lra).
  match goal with |- _ > atan ?q => pose proof (atan_bound q) as [_ Hub] end.
  pose proof PI_RGT_0. lra.
Qed.

Lemma simulate_splits_witness :
  simulate_photon_transport TapeRng.rng TapeRng.random_sample TapeRng.standard_normal
    main_simulator (2 + 3) 100.0 on_axis_tape
  = '(r1, g1) <-
      simulate_photon_transport TapeRng.rng TapeRng.random_sample
        TapeRng.standard_normal main_simulator 2 100.0 on_axis_tape ;;
    '(r2, g2) <-
      simulate_photon_transport TapeRng.rng TapeRng.random_sample
        TapeRng.standard_normal main_simulator 3 100.0 g1 ;;
    ret (merge_results r1 r2, g2).
Proof.
  apply (simulate_splits TapeRng.rng TapeRng.random_sample TapeRng.standard_normal
           main_simulator 2 3 100.0 100.0 100.0 on_axis_tape); lia.
Defined.

Lemma no_septa_no_absorption_witness :
  exists r g',
    simulate_photon_transport TapeRng.rng TapeRng.random_sample TapeRng.standard_normal
      thin_simulator 3 100.0 on_axis_tape = inr (r, g')
    /\ septal_penetration r = 0%Z
    /\ (detected_count r + geometric_rejection r = Z.of_nat (Z.to_nat 3))%Z.
Proof.
  apply (no_septa_no_absorption TapeRng.rng TapeRng.random_sample
           TapeRng.standard_normal tape_random_sample_range
           thin_simulator 3 100.0 on_axis_tape).
  - exact thin_simulator_valid.
  - reflexivity.
Defined.

Lemma recorded_photons_within_extended_face_witness :
  exists r g',
    simulate_photon_transport TapeRng.rng TapeRng.random_sample TapeRng.standard_normal
      main_simulator 3 100.0 on_axis_tape = inr (r, g')
    /\ Forall (fun ph =>
                 Rabs (x ph) <= detector_width main_simulator / 2
                                + hole_diameter (self_params main_simulator) / 2
                 /\ Rabs (y ph) <= detector_height main_simulator / 2
                                   + hole_diameter (self_params main_simulator) / 2)
              (detected_photons r).
Proof.
  apply (recorded_photons_within_extended_face TapeRng.rng TapeRng.random_sample
           TapeRng.standard_normal tape_random_sample_range
           main_simulator 3 100.0 on_axis_tape).
  exact main_params_valid.
Defined.

Lemma narrower_holes_reject_more_witness :
  trace_photon TapeRng.rng TapeRng.random_sample TapeRng.standard_normal
    main_simulator PI 0 0 0 on_axis_tape
  = inr (GeometricRejection, on_axis_tape).
Proof.
  apply (narrower_holes_reject_more TapeRng.rng TapeRng.random_sample
           TapeRng.standard_normal main_simulator wide_simulator
           PI 0 0 0 0 0 0 on_axis_tape near_one_tape near_one_tape).
  - exact main_params_valid.
  - exact wide_simulator_valid.
  - cbn. lra.
  - exact wide_rejects_backward.
Defined.

(** * Further properties of the metrics engine *)

(** X6: [calculate_metrics] raises if and only if the result records a
    detected photon and has a zero total, and what it raises then is
    [ZeroDivisionError]. *)
Theorem calculate_metrics_raises_iff (self : SPECTSimulator) (r : SimulationResult) :
  ((exists e, calculate_metrics self r = inl e)
   <-> detected_photons r <> [] /\ total_photons r = 0%Z)
  /\ (forall e, calculate_metrics self r = inl e -> e = ZeroDivisionError).
Proof.
  destruct (detected_photons r) as [| p ps] eqn:E.
  - rewrite (calculate_metrics_no_counts self r E). split; [split |].
    + intros [e He]. discriminate.
    + intros [Hne _]. contradiction.
    + intros e He. discriminate.
  - assert (detected_photons r <> []) as Hne by (rewrite E; discriminate).
    destruct (Z.eq_dec (total_photons r) 0) as [Hz | Hnz].
    + assert (calculate_metrics self r = inl ZeroDivisionError) as Hraise.
      { unfold calculate_metrics. rewrite E, Hz. reflexivity. }
      rewrite Hraise. split; [split |].
      * intros _. split; [discriminate | exact Hz].
      * intros _. eexists. reflexivity.
      * intros e [= <-]. reflexivity.
    + rewrite (calculate_metrics_counts self r Hne Hnz). split; [split |].
      * intros [e He]. discriminate.
      * intros [_ Hz]. contradiction.
      * intros e He. discriminate.
Qed.

(** X7: whenever [calculate_metrics] returns, its dict has the entries
    sensitivity, spatial_resolution_fwhm, uniformity and contrast_to_noise;
    it has the entries septal_penetration_fraction and geometric_efficiency
    if and only if a photon was detected. *)
Theorem calculate_metrics_keys
    (self : SPECTSimulator) (r : SimulationResult) (m : Metrics) :
  calculate_metrics self r = inr m ->
  (exists s f u c,
      dict_get m "sensitivity" = Some s
      /\ dict_get m "spatial_resolution_fwhm" = Some f
      /\ dict_get m "uniformity" = Some u
      /\ dict_get m "contrast_to_noise" = Some c)
  /\ ((exists p, dict_get m "septal_penetration_fraction" = Some p)
      <-> detected_photons r <> [])
  /\ ((exists e, dict_get m "geometric_efficiency" = Some e)
      <-> detected_photons r <> []).
Proof.
  intros Hm. destruct (detected_photons r) as [| p ps] eqn:E.
  - rewrite (calculate_metrics_no_counts self r E) in Hm. injection Hm as <-.
    split; [do 4 eexists; repeat split |].
    split; (split; [intros [v Hv]; discriminate | intros Hne; contradiction]).
  - assert (detected_photons r <> []) as Hne by (rewrite E; discriminate).
    destruct (Z.eq_dec (total_photons r) 0) as [Hz | Hnz].
    + exfalso. unfold calculate_metrics in Hm. rewrite E, Hz in Hm. discriminate.
    + rewrite (calculate_metrics_counts self r Hne Hnz) in Hm. injection Hm as <-.
      split; [do 4 eexists; repeat split |].
      split; (split; [intros _; discriminate | intros _; eexists; reflexivity]).
Qed.

Lemma percent_range (a t : Z) :
  (0 <= a <= t)%Z -> (0 < t)%Z -> 0 <= IZR a / IZR t * 100 <= 100.
Proof.
  intros [Ha Hat] Ht.
  apply IZR_le in Ha. apply IZR_le in Hat. apply IZR_lt in Ht.
  assert (0 < / IZR t) as Hinv by (apply Rinv_0_lt_compat; lra).
  assert (IZR t * / IZR t = 1) as Hone by (apply Rinv_r; lra).
  unfold Rdiv. split; nra.
Qed.

(** X8: on a well-formed result with a detected photon neither the
    sensitivity nor the septal penetration fraction exceeds the geometric
    efficiency: the detected photons and the septally absorbed ones are
    both among those that passed the acceptance test. *)
Theorem geometric_efficiency_dominates (self : SPECTSimulator) (r : SimulationResult) :
  well_formed_result r ->
  (0 < detected_count r)%Z ->
  exists m s p e,
    calculate_metrics self r = inr m
    /\ dict_get m "sensitivity" = Some s
    /\ dict_get m "septal_penetration_fraction" = Some p
    /\ dict_get m "geometric_efficiency" = Some e
    /\ s <= e /\ p <= e.
Proof.
  intros Hwf Hpos. pose proof Hwf as (Hd & Hs & Hg & Hsum).
  assert (detected_photons r <> []) as Hne
      by (intros E; rewrite E in Hd; simpl in Hd; lia).
  pose proof (well_formed_total_nonzero r Hwf Hne) as Htot.
  rewrite (calculate_metrics_counts self r Hne Htot), <- Hd.
  do 4 eexists. split; [reflexivity |]. do 3 (split; [reflexivity |]).
  assert (0 < IZR (total_photons r)) as Ht by (apply IZR_lt; lia).
  assert (0 < / IZR (total_photons r)) as Hinv by (apply Rinv_0_lt_compat; lra).
  assert (IZR (detected_count r) <= IZR (total_photons r - geometric_rejection r))
    as Hde by (apply IZR_le; lia).
  assert (IZR (septal_penetration r) <= IZR (total_photons r - geometric_rejection r))
    as Hpe by (apply IZR_le; lia).
  unfold Rdiv. split; nra.
Qed.

(** X9: on a well-formed result with a detected photon the three percentages
    are percentages: the sensitivity and the geometric efficiency are in
    (0, 100], the septal penetration fraction is in [0, 100]. *)
Theorem percentages_in_range (self : SPECTSimulator) (r : SimulationResult) :
  well_formed_result r ->
  (0 < detected_count r)%Z ->
  exists m s p e,
    calculate_metrics self r = inr m
    /\ dict_get m "sensitivity" = Some s
    /\ dict_get m "septal_penetration_fraction" = Some p
    /\ dict_get m "geometric_efficiency" = Some e
    /\ 0 < s <= 100 /\ 0 <= p <= 100 /\ 0 < e <= 100.
Proof.
  intros Hwf Hpos. pose proof Hwf as (Hd & Hs & Hg & Hsum).
  assert (detected_photons r <> []) as Hne
      by (intros E; rewrite E in Hd; simpl in Hd; lia).
  pose proof (well_formed_total_nonzero r Hwf Hne) as Htot.
  rewrite (calculate_metrics_counts self r Hne Htot), <- Hd.
  do 4 eexists. split; [reflexivity |]. do 3 (split; [reflexivity |]).
  assert (0 < total_photons r)%Z as Ht by lia.
  pose proof (percent_range (detected_count r) (total_photons r) ltac:(lia) Ht) as Hs1.
  pose proof (percent_range (septal_penetration r) (total_photons r) ltac:(lia) Ht) as Hp1.
  pose proof (percent_range (total_photons r - geometric_rejection r)
                (total_photons r) ltac:(lia) Ht) as He1.
  assert (forall a, (0 < a)%Z -> 0 < IZR a / IZR (total_photons r) * 100) as Hstrict.
  { intros a Ha. apply IZR_lt in Ha. apply IZR_lt in Ht.
    assert (0 < / IZR (total_photons r)) by (apply Rinv_0_lt_compat; lra).
    unfold Rdiv. nra. }
  pose proof (Hstrict _ Hpos). pose proof (Hstrict (total_photons r - geometric_rejection r)%Z ltac:(lia)).
  repeat split; lra.
Qed.

Lemma _calculate_uniformity_range (self : SPECTSimulator) (photons : list Photon)
    (grid_size : nat) :
  0 <= _calculate_uniformity self photons grid_size <= 100.
Proof.
  unfold _calculate_uniformity. destruct (_ <? _)%nat; [lra |].
  destruct (Rgt_dec _ _) as [Hmean | _]; [| lra].
  rewrite pymax_Rmax.
  set (h := List.concat _) in *.
  assert (0 <= np_std h / np_mean h) as Hcv.
  { pose proof (np_std_nonneg h).
    assert (0 < / np_mean h) by (apply Rinv_0_lt_compat; lra).
    unfold Rdiv. nra. }
  split; [apply Rmax_l |]. apply Rmax_lub; lra.
Qed.

(** X11: on a well-formed result the uniformity entry is between 0 and 100. *)
Theorem uniformity_in_range (self : SPECTSimulator) (r : SimulationResult) :
  well_formed_result r ->
  exists m u,
    calculate_metrics self r = inr m
    /\ dict_get m "uniformity" = Some u
    /\ 0 <= u <= 100.
Proof.
  intros Hwf. destruct (detected_photons r) as [| p ps] eqn:E.
  - rewrite (calculate_metrics_no_counts self r E).
    exists no_counts_metrics, 0.0. split; [reflexivity |]. split; [reflexivity | lra].
  - assert (detected_photons r <> []) as Hne by (rewrite E; discriminate).
    rewrite (calculate_metrics_counts self r Hne (well_formed_total_nonzero r Hwf Hne)).
    do 2 eexists. split; [reflexivity |]. split; [reflexivity |].
    apply _calculate_uniformity_range.
Qed.

(** * The pipeline and the sweeps *)

Section PipelineFacts.

Variable rng : Type.
Variable random_sample : rng -> R * rng.
Variable standard_normal : rng -> R * rng.

Local Abbreviation simulate :=
  (simulate_photon_transport rng random_sample standard_normal).

(** What a run on a valid geometry returns is a result with which
    [calculate_metrics] does not divide by zero, for every photon count. *)
Lemma simulate_then_metrics (self : SPECTSimulator) (N : Z) (d : R) (g : rng) :
  valid_geometry (self_params self) ->
  exists r g' m s f u,
    simulate self N d g = inr (r, g')
    /\ calculate_metrics self r = inr m
    /\ dict_get m "sensitivity" = Some s
    /\ dict_get m "spatial_resolution_fwhm" = Some f
    /\ dict_get m "uniformity" = Some u
    /\ 0 <= s <= 100.
Proof.
  intros Hv. destruct (Z.le_gt_cases 0 N) as [HN | HN].
  - destruct (simulate_result_well_formed rng random_sample standard_normal
                self N d g Hv HN) as (r & g' & Hsim & Hwf & _).
    exists r, g'. destruct (detected_photons r) as [| p ps] eqn:E.
    + rewrite (calculate_metrics_no_counts self r E).
      exists no_counts_metrics, 0.0, 0.0, 0.0.
      split; [exact Hsim |]. do 4 (split; [reflexivity |]). lra.
    + assert (detected_photons r <> []) as Hne by (rewrite E; discriminate).
      pose proof (well_formed_total_nonzero r Hwf Hne) as Htot.
      rewrite (calculate_metrics_counts self r Hne Htot).
      do 4 eexists. split; [exact Hsim |]. do 4 (split; [reflexivity |]).
      destruct Hwf as (Hd & Hs & Hg & Hsum). rewrite <- Hd.
      apply percent_range; lia.
  - unfold simulate_photon_transport.
    replace (Z.to_nat N) with 0%nat by lia. cbn [run_trials bind ret acc_init
      acc_detected_photons acc_septal_penetration_count acc_geometric_rejection_count].
    do 2 eexists. exists no_counts_metrics, 0.0, 0.0, 0.0.
    split; [reflexivity |]. do 4 (split; [reflexivity |]). lra.
Qed.

(** X12: on a valid geometry the pipeline never raises, for any photon
    count and generator: the run returns a result, [calculate_metrics]
    returns a dict from it, and the sensitivity in it is between 0 and
    100. *)
Theorem pipeline_returns_metrics (self : SPECTSimulator) (N : Z) (d : R) (g : rng) :
  valid_geometry (self_params self) ->
  exists r g' m s,
    simulate self N d g = inr (r, g')
    /\ calculate_metrics self r = inr m
    /\ dict_get m "sensitivity" = Some s
    /\ 0 <= s <= 100.
Proof.
  intros Hv.
  destruct (simulate_then_metrics self N d g Hv)
    as (r & g' & m & s & f & u & Hsim & Hm & Hs & _ & _ & Hrange).
  exists r, g', m, s. auto.
Qed.

Local Abbreviation point := (optimize_point rng random_sample standard_normal).
Local Abbreviation lengths := (optimize_lengths rng random_sample standard_normal).
Local Abbreviation diameters := (optimize_diameters rng random_sample standard_normal).
Local Abbreviation optimize := (optimize_collimator rng random_sample standard_normal).

(** One point of the grid with positive dimensions returns its row. *)
Lemma optimize_point_returns (diameter length : R) (num_photons : Z) (g : rng) :
  0 < diameter -> 0 < length ->
  exists row g',
    point diameter length num_photons g = inr (row, g')
    /\ opt_hole_diameter row = diameter
    /\ opt_hole_length row = length
    /\ 0 <= opt_sensitivity row <= 100.
Proof.
  intros Hd Hl. unfold optimize_point, CollimatorParams_init, SPECTSimulator_init.
  cbn [bind ret material dict_get MATERIALS String.eqb Ascii.eqb Bool.eqb].
  set (sim := Build_SPECTSimulator _ _).
  assert (valid_geometry (self_params sim)) as Hv.
  { unfold valid_geometry. cbn. repeat split; try lra; lia. }
  destruct (simulate_then_metrics sim num_photons 100.0 g Hv)
    as (r & g' & m & s & f & u & Hsim & Hm & Hs & Hf & Hu & Hrange).
  rewrite Hsim. cbn [bind]. rewrite Hm. cbn [bind].
  unfold getitem. rewrite Hs, Hf, Hu. cbn [bind ret].
  do 2 eexists. split; [reflexivity |]. cbn. auto.
Qed.

Lemma optimize_lengths_returns (diameter : R) (num_photons : Z) :
  0 < diameter ->
  forall (hole_lengths : list R) (results : list OptimizeRow) (g : rng),
  Forall (fun l => 0 < l) hole_lengths ->
  exists rows g',
    lengths diameter hole_lengths num_photons results g = inr (results ++ rows, g')
    /\ map (fun row => (opt_hole_diameter row, opt_hole_length row)) rows
       = map (fun l => (diameter, l)) hole_lengths
    /\ Forall (fun row => 0 <= opt_sensitivity row <= 100) rows.
Proof.
  intros Hd. induction hole_lengths as [| l ls IH]; intros results g Hpos.
  - exists [], g. rewrite app_nil_r. repeat split; constructor.
  - inversion Hpos as [| ? ? Hl Hls]; subst.
    destruct (optimize_point_returns diameter l num_photons g Hd Hl)
      as (row & g1 & Hpt & Hrd & Hrl & Hrs).
    destruct (IH (results ++ [row]) g1 Hls) as (rows & g' & Hrun & Hmap & Hall).
    exists (row :: rows), g'. cbn [optimize_lengths]. rewrite Hpt. cbn [bind].
    rewrite Hrun, <- app_assoc. cbn [app map].
    split; [reflexivity |]. split; [now rewrite Hrd, Hrl, Hmap | now constructor].
Qed.

Lemma optimize_diameters_returns (num_photons : Z) (hole_lengths : list R) :
  Forall (fun l => 0 < l) hole_lengths ->
  forall (hole_diameters : list R) (results : list OptimizeRow) (g : rng),
  Forall (fun d => 0 < d) hole_diameters ->
  exists rows g',
    diameters hole_diameters hole_lengths num_photons results g
    = inr (results ++ rows, g')
    /\ map (fun row => (opt_hole_diameter row, opt_hole_length row)) rows
       = list_prod hole_diameters hole_lengths
    /\ Forall (fun row => 0 <= opt_sensitivity row <= 100) rows.
Proof.
  intros Hls. induction hole_diameters as [| d ds IH]; intros results g Hpos.
  - exists [], g. rewrite app_nil_r. repeat split; constructor.
  - inversion Hpos as [| ? ? Hd Hds]; subst.
    destruct (optimize_lengths_returns d num_photons Hd hole_lengths results g Hls)
      as (rows1 & g1 & Hrun1 & Hmap1 & Hall1).
    destruct (IH (results ++ rows1) g1 Hds) as (rows2 & g' & Hrun2 & Hmap2 & Hall2).
    exists (rows1 ++ rows2), g'. cbn [optimize_diameters]. rewrite Hrun1. cbn [bind].
    rewrite Hrun2, <- app_assoc. split; [reflexivity |].
    split; [| now apply Forall_app].
    cbn [list_prod]. now rewrite map_app, Hmap1, Hmap2.
Qed.

End PipelineFacts.

Lemma np_linspace_length (start stop : R) (num : nat) :
  List.length (np_linspace start stop num) = num.
Proof.
  destruct num as [| [| n]]; [reflexivity | reflexivity |].
  unfold np_linspace. rewrite length_app, length_map, length_seq. simpl. lia.
Qed.

(** The points of [np.linspace] between two positive ends are positive. *)
Lemma np_linspace_positive (start stop : R) (num : nat) :
  0 < start -> 0 < stop -> Forall (fun v => 0 < v) (np_linspace start stop num).
Proof.
  intros Hstart Hstop. destruct num as [| [| n]]; [constructor | repeat constructor; lra |].
  unfold np_linspace. apply Forall_app. split; [| repeat constructor; lra].
  rewrite Forall_forall. intros v Hv. apply in_map_iff in Hv.
  destruct Hv as (k & <- & Hk). apply in_seq in Hk.
  set (div := S n) in *.
  assert (0 < INR div) as Hdiv by (apply lt_0_INR; unfold div; lia).
  assert (0 <= INR k) as Hk0 by apply pos_INR.
  assert (INR k <= INR div) as Hkd by (apply le_INR; lia).
  assert (0 < / INR div) as Hinv by (apply Rinv_0_lt_compat; lra).
  assert (INR div * / INR div = 1) as Hone by (apply Rinv_r; lra).
  set (t := INR k * / INR div).
  assert (0 <= t <= 1) as Ht by (unfold t; split; nra).
  replace (INR k * ((stop - start) / INR div) + start)
    with ((1 - t) * start + t * stop) by (unfold t; field; lra).
  destruct (Req_dec_T t 1) as [-> | Hne]; [lra | nra].
Qed.

(** X13: for ranges with positive ends [optimize_collimator] never raises,
    for any photon count and generator: it returns one row per point of
    the grid, in the order of the nested loops (diameters outside, lengths
    inside), each row carrying the diameter and the length of its point
    and a sensitivity between 0 and 100. *)
Theorem optimize_collimator_covers_grid
    (rng : Type) (random_sample standard_normal : rng -> R * rng)
    (param_ranges : list (string * (R * R * nat))) (num_photons : Z) (g : rng)
    (d_min d_max l_min l_max : R) (d_steps l_steps : nat) :
  dict_get param_ranges "hole_diameter" = Some (d_min, d_max, d_steps) ->
  dict_get param_ranges "hole_length" = Some (l_min, l_max, l_steps) ->
  0 < d_min -> 0 < d_max -> 0 < l_min -> 0 < l_max ->
  exists rows g',
    optimize_collimator rng random_sample standard_normal param_ranges num_photons g
    = inr (rows, g')
    /\ List.length rows = (d_steps * l_steps)%nat
    /\ map (fun row => (opt_hole_diameter row, opt_hole_length row)) rows
       = list_prod (np_linspace d_min d_max d_steps) (np_linspace l_min l_max l_steps)
    /\ Forall (fun row => 0 <= opt_sensitivity row <= 100) rows.
Proof.
  intros Hd Hl Hd1 Hd2 Hl1 Hl2. unfold optimize_collimator, getitem.
  rewrite Hd, Hl. cbn [bind ret].
  destruct (optimize_diameters_returns rng random_sample standard_normal num_photons
              (np_linspace l_min l_max l_steps)
              (np_linspace_positive l_min l_max l_steps Hl1 Hl2)
              (np_linspace d_min d_max d_steps) [] g
              (np_linspace_positive d_min d_max d_steps Hd1 Hd2))
    as (rows & g' & Hrun & Hmap & Hall).
  exists rows, g'. split; [exact Hrun |]. split; [| split; assumption].
  rewrite <- (length_map (fun row => (opt_hole_diameter row, opt_hole_length row))),
    Hmap, length_prod, !np_linspace_length. reflexivity.
Qed.

Lemma optimize_collimator_covers_grid_witness :
  exists rows g',
    optimize_collimator TapeRng.rng TapeRng.random_sample TapeRng.standard_normal
      example_ranges 5 on_axis_tape
    = inr (rows, g')
    /\ List.length rows = (3 * 2)%nat
    /\ map (fun row => (opt_hole_diameter row, opt_hole_length row)) rows
       = list_prod (np_linspace 1.0 2.0 3) (np_linspace 20 30 2)
    /\ Forall (fun row => 0 <= opt_sensitivity row <= 100) rows.
Proof.
  apply (optimize_collimator_covers_grid
           TapeRng.rng TapeRng.random_sample TapeRng.standard_normal
           example_ranges 5 on_axis_tape 1.0 2.0 20 30 3 2);
    try reflexivity; lra.
Defined.

Lemma pipeline_returns_metrics_witness :
  exists r g' m s,
    simulate_photon_transport TapeRng.rng TapeRng.random_sample TapeRng.standard_normal
      main_simulator 3 100.0 on_axis_tape = inr (r, g')
    /\ calculate_metrics main_simulator r = inr m
    /\ dict_get m "sensitivity" = Some s
    /\ 0 <= s <= 100.
Proof.
  apply (pipeline_returns_metrics TapeRng.rng TapeRng.random_sample
           TapeRng.standard_normal main_simulator 3 100.0 on_axis_tape).
  exact main_params_valid.
Defined.

Ltac dict_lookups :=
  unfold getitem;
  cbn [bind ret dict_get String.eqb Ascii.eqb Bool.eqb].

(** X14: on a well-formed result the row of [parameter_sweep_analysis] is
    built if and only if at least ten photons were detected.  Without a
    detected photon it raises [KeyError] for the septal penetration
    fraction, which the early return of [calculate_metrics] leaves out;
    with one to nine detected photons it raises [ZeroDivisionError], the
    figure of merit dividing by the spatial resolution 0.0. *)
Theorem sweep_row_needs_ten_photons
    (material : string) (diameter length : R)
    (simulator : SPECTSimulator) (r : SimulationResult) :
  well_formed_result r ->
  ((exists row, sweep_row material diameter length simulator r = inr row)
   <-> (10 <= detected_count r)%Z)
  /\ (detected_count r = 0%Z ->
      sweep_row material diameter length simulator r
      = inl (KeyError "septal_penetration_fraction"))
  /\ ((0 < detected_count r < 10)%Z ->
      sweep_row material diameter length simulator r = inl ZeroDivisionError).
Proof.
  intros Hwf. pose proof Hwf as (Hd & _).
  destruct (detected_photons r) as [| p ps] eqn:E.
  - assert (sweep_row material diameter length simulator r
            = inl (KeyError "septal_penetration_fraction")) as Hraise.
    { unfold sweep_row. rewrite (calculate_metrics_no_counts simulator r E).
      unfold no_counts_metrics. dict_lookups. reflexivity. }
    rewrite Hraise. cbn in Hd. split; [split |]; [| | split].
    + intros [row Hrow]. discriminate.
    + lia.
    + reflexivity.
    + lia.
  - assert (detected_photons r <> []) as Hne by (rewrite E; discriminate).
    pose proof (well_formed_total_nonzero r Hwf Hne) as Htot.
    unfold sweep_row. rewrite (calculate_metrics_counts simulator r Hne Htot).
    dict_lookups. rewrite E in *.
    destruct (Nat.ltb_spec (List.length (p :: ps)) 10) as [Hlt | Hge].
    + assert (_calculate_fwhm simulator (map x (p :: ps)) = 0.0) as Hf.
      { unfold _calculate_fwhm. rewrite length_map.
        destruct (Nat.ltb_spec (List.length (p :: ps)) 10); [reflexivity | lia]. }
      rewrite Hf. unfold pydiv.
      destruct (Req_dec_T 0.0 0) as [_ | Hn]; [| exfalso; apply Hn; lra].
      cbn [bind raise]. cbn [List.length] in Hd. split; [split |]; [| | split].
      * intros [row Hrow]. discriminate.
      * cbn [List.length] in Hlt. lia.
      * lia.
      * reflexivity.
    + cbn [bind ret]. cbn [List.length] in Hd, Hge. split; [split |]; [| | split].
      * intros _. lia.
      * intros _. eexists. reflexivity.
      * lia.
      * lia.
Qed.

Lemma sweep_row_needs_ten_photons_witness :
  ((exists row, sweep_row "lead" 1.5 25.0 main_simulator diagonal_result = inr row)
   <-> (10 <= detected_count diagonal_result)%Z)
  /\ (detected_count diagonal_result = 0%Z ->
      sweep_row "lead" 1.5 25.0 main_simulator diagonal_result
      = inl (KeyError "septal_penetration_fraction"))
  /\ ((0 < detected_count diagonal_result < 10)%Z ->
      sweep_row "lead" 1.5 25.0 main_simulator diagonal_result = inl ZeroDivisionError).
Proof.
  apply (sweep_row_needs_ten_photons "lead" 1.5 25.0 main_simulator diagonal_result).
  exact diagonal_result_well_formed.
Defined.

Lemma calculate_metrics_keys_witness :
  exists m,
    calculate_metrics main_simulator diagonal_result = inr m
    /\ (exists s f u c,
           dict_get m "sensitivity" = Some s
           /\ dict_get m "spatial_resolution_fwhm" = Some f
           /\ dict_get m "uniformity" = Some u
           /\ dict_get m "contrast_to_noise" = Some c)
    /\ ((exists p, dict_get m "septal_penetration_fraction" = Some p)
        <-> detected_photons diagonal_result <> [])
    /\ ((exists e, dict_get m "geometric_efficiency" = Some e)
        <-> detected_photons diagonal_result <> []).
Proof.
  eexists. split; [reflexivity |].
  apply (calculate_metrics_keys main_simulator diagonal_result). reflexivity.
Defined.

Lemma geometric_efficiency_dominates_witness :
  exists m s p e,
    calculate_metrics main_simulator diagonal_result = inr m
    /\ dict_get m "sensitivity" = Some s
    /\ dict_get m "septal_penetration_fraction" = Some p
    /\ dict_get m "geometric_efficiency" = Some e
    /\ s <= e /\ p <= e.
Proof.
  apply (geometric_efficiency_dominates main_simulator diagonal_result).
  - exact diagonal_result_well_formed.
  - cbn. lia.
Defined.

Lemma percentages_in_range_witness :
  exists m s p e,
    calculate_metrics main_simulator diagonal_result = inr m
    /\ dict_get m "sensitivity" = Some s
    /\ dict_get m "septal_penetration_fraction" = Some p
    /\ dict_get m "geometric_efficiency" = Some e
    /\ 0 < s <= 100 /\ 0 <= p <= 100 /\ 0 < e <= 100.
Proof.
  apply (percentages_in_range main_simulator diagonal_result).
  - exact diagonal_result_well_formed.
  - cbn. lia.
Defined.

Lemma uniformity_in_range_witness :
  exists m u,
    calculate_metrics main_simulator diagonal_result = inr m
    /\ dict_get m "uniformity" = Some u
    /\ 0 <= u <= 100.
Proof.
  apply (uniformity_in_range main_simulator diagonal_result).
  exact diagonal_result_well_formed.
Defined.

(** * The scan for the Pareto front *)


Lemma pareto_fold (rows : list SweepRow) :
  forall (points : list SweepRow) (m : option R),
  fst (fold_left pareto_step rows (points, m)) = points ++ pareto_scan rows m.
Proof.
  induction rows as [| row rest IH]; intros points m; cbn [fold_left pareto_scan].
  - now rewrite app_nil_r.
  - unfold pareto_step at 2. destruct (below_min (row_resolution row) m).
    + rewrite IH, <- app_assoc. reflexivity.
    + apply IH.
Qed.

Lemma pareto_points_scan (rows : list SweepRow) :
  pareto_points rows = pareto_scan rows None.
Proof. unfold pareto_points. now rewrite pareto_fold. Qed.

Lemma below_min_trans (a b : R) (m : option R) :
  a < b -> below_min b m = true -> below_min a m = true.
Proof.
  destruct m as [v |]; [| reflexivity]. cbn.
  destruct (Rlt_dec b v), (Rlt_dec a v); try reflexivity; try discriminate.
  intros. exfalso. lra.
Qed.

(** What the scan keeps: input rows, each below the minimum the scan
    started with, each later one below every earlier one, in the order of
    the input. *)
Lemma pareto_scan_sorted (Rel : SweepRow -> SweepRow -> Prop) (rows : list SweepRow) :
  StronglySorted Rel rows ->
  forall m,
  StronglySorted (fun a b => Rel a b /\ row_resolution b < row_resolution a)
                 (pareto_scan rows m)
  /\ Forall (fun k => below_min (row_resolution k) m = true) (pareto_scan rows m)
  /\ Forall (fun k => In k rows) (pareto_scan rows m).
Proof.
  induction 1 as [| row rest Hsorted IH Hall]; intros m; cbn [pareto_scan].
  - repeat split; constructor.
  - destruct (below_min (row_resolution row) m) eqn:Hb.
    + destruct (IH (Some (row_resolution row))) as (Hs & Hbelow & Hin).
      assert (Forall (fun k => row_resolution k < row_resolution row)
                     (pareto_scan rest (Some (row_resolution row)))) as Hlt.
      { eapply Forall_impl; [| exact Hbelow]. cbn. intros k Hk.
        destruct (Rlt_dec _ _); [assumption | discriminate]. }
      split; [| split].
      * constructor; [exact Hs |].
        rewrite Forall_forall in *. intros k Hk. split; [| now apply Hlt].
        apply Hall. now apply Hin.
      * constructor; [exact Hb |].
        rewrite Forall_forall in *. intros k Hk.
        apply (below_min_trans _ (row_resolution row)); [now apply Hlt | exact Hb].
      * constructor; [now left |].
        eapply Forall_impl; [| exact Hin]. cbn. intros k Hk. now right.
    + destruct (IH m) as (Hs & Hbelow & Hin).
      split; [exact Hs |]. split; [exact Hbelow |].
      eapply Forall_impl; [| exact Hin]. cbn. intros k Hk. now right.
Qed.

Lemma StronglySorted_trivial {A : Type} (l : list A) :
  StronglySorted (fun _ _ => True) l.
Proof.
  induction l as [| a l IH]; constructor; [exact IH |].
  rewrite Forall_forall. auto.
Qed.

Lemma StronglySorted_weaken {A : Type} (P Q : A -> A -> Prop) (l : list A) :
  (forall a b, P a b -> Q a b) -> StronglySorted P l -> StronglySorted Q l.
Proof.
  intros HPQ. induction 1 as [| a l Hs IH Hall]; constructor; [exact IH |].
  eapply Forall_impl; [| exact Hall]. intros b. apply HPQ.
Qed.

(** X15: the rows returned by the scan are rows of the input, and along
    them the resolution is strictly decreasing: each returned row has a
    smaller resolution than every row returned before it. *)
Theorem pareto_points_resolution_decreases (rows : list SweepRow) :
  StronglySorted (fun a b => row_resolution b < row_resolution a) (pareto_points rows)
  /\ incl (pareto_points rows) rows.
Proof.
  rewrite pareto_points_scan.
  destruct (pareto_scan_sorted (fun _ _ => True) rows (StronglySorted_trivial rows) None)
    as (Hs & _ & Hin).
  split.
  - eapply StronglySorted_weaken; [| exact Hs]. cbn. tauto.
  - intros k Hk. rewrite Forall_forall in Hin. now apply Hin.
Qed.

(** X16: on rows sorted by sensitivity, the returned rows are in the order
    of non-decreasing sensitivity and strictly decreasing resolution: each
    returned row is at least as sensitive as, and strictly finer than,
    every row returned before it. *)
Theorem pareto_points_chain (lead_data_sorted : list SweepRow) :
  StronglySorted (fun a b => row_sensitivity a <= row_sensitivity b) lead_data_sorted ->
  StronglySorted (fun a b => row_sensitivity a <= row_sensitivity b
                             /\ row_resolution b < row_resolution a)
                 (pareto_points lead_data_sorted).
Proof.
  intros Hsorted. rewrite pareto_points_scan.
  now destruct (pareto_scan_sorted _ lead_data_sorted Hsorted None) as (Hs & _ & _).
Qed.

(** A scan that keeps nothing started with a minimum that no row is below. *)
Lemma pareto_scan_nil (rows : list SweepRow) (m : option R) :
  pareto_scan rows m = [] ->
  Forall (fun row => below_min (row_resolution row) m = false) rows.
Proof.
  induction rows as [| row rest IH]; cbn [pareto_scan]; [constructor |].
  destruct (below_min (row_resolution row) m) eqn:Hb; [discriminate |].
  intros Hnil. constructor; [exact Hb | now apply IH].
Qed.

Lemma below_min_false (a b : R) : below_min a (Some b) = false -> b <= a.
Proof. cbn. destruct (Rlt_dec a b); [discriminate | intros _; lra]. Qed.

Lemma below_min_true (a b : R) : below_min a (Some b) = true -> a < b.
Proof. cbn. destruct (Rlt_dec a b); [intros _; lra | discriminate]. Qed.

Lemma last_In {A : Type} (l : list A) (d : A) : l <> [] -> In (last l d) l.
Proof.
  induction l as [| a l IH]; [contradiction |]. intros _.
  destruct l as [| b l]; [now left |]. right. apply IH. discriminate.
Qed.

(** The last row the scan keeps has the least resolution of the input. *)
Lemma pareto_scan_last (rows : list SweepRow) :
  forall (m : option R) (d : SweepRow),
  pareto_scan rows m <> [] ->
  Forall (fun row => row_resolution (last (pareto_scan rows m) d) <= row_resolution row)
         rows.
Proof.
  induction rows as [| row rest IH]; intros m d; cbn [pareto_scan]; [contradiction |].
  destruct (below_min (row_resolution row) m) eqn:Hb.
  - intros _. destruct (pareto_scan rest (Some (row_resolution row))) as [| k ks] eqn:Hk.
    + cbn [last]. constructor; [lra |].
      pose proof (pareto_scan_nil rest _ Hk) as Hall.
      eapply Forall_impl; [| exact Hall]. cbn beta. intros r Hr.
      now apply below_min_false.
    + assert (pareto_scan rest (Some (row_resolution row)) <> []) as Hne
          by (rewrite Hk; discriminate).
      pose proof (IH (Some (row_resolution row)) d Hne) as Hall. rewrite Hk in Hall.
      change (last (row :: k :: ks) d) with (last (k :: ks) d).
      constructor; [| exact Hall].
      destruct (pareto_scan_sorted (fun _ _ => True) rest (StronglySorted_trivial rest)
                  (Some (row_resolution row))) as (_ & Hbelow & _).
      rewrite Hk in Hbelow. rewrite Forall_forall in Hbelow.
      assert (In (last (k :: ks) d) (k :: ks)) as Hin
          by (apply last_In; discriminate).
      apply Hbelow, below_min_true in Hin. lra.
  - intros Hne. pose proof (IH m d Hne) as Hall. constructor; [| exact Hall].
    destruct m as [b |]; [| discriminate].
    apply below_min_false in Hb.
    destruct (pareto_scan_sorted (fun _ _ => True) rest (StronglySorted_trivial rest)
                (Some b)) as (_ & Hbelow & _).
    rewrite Forall_forall in Hbelow.
    assert (In (last (pareto_scan rest (Some b)) d) (pareto_scan rest (Some b))) as Hin
        by (apply last_In; exact Hne).
    apply Hbelow, below_min_true in Hin. lra.
Qed.

(** X17: the scan always returns the first row it is given, and the last
    row it returns has the least resolution of all rows. *)
Theorem pareto_points_first_and_finest (row d : SweepRow) (rest : list SweepRow) :
  exists kept,
    pareto_points (row :: rest) = row :: kept
    /\ Forall (fun r => row_resolution (last (row :: kept) d) <= row_resolution r)
              (row :: rest).
Proof.
  rewrite pareto_points_scan.
  exists (pareto_scan rest (Some (row_resolution row))).
  split; [reflexivity |].
  apply (pareto_scan_last (row :: rest) None d). discriminate.
Qed.

Lemma pareto_points_chain_witness :
  StronglySorted (fun a b => row_sensitivity a <= row_sensitivity b
                             /\ row_resolution b < row_resolution a)
                 (pareto_points example_sweep).
Proof.
  apply (pareto_points_chain example_sweep).
  unfold example_sweep. repeat constructor; cbn; lra.
Defined.

(** * The spread of the recorded positions *)

Lemma np_sum_squares_shift (a : list R) (c : R) :
  np_sum (map (fun v => Rsqr (Rabs (v - c))) a)
  = np_sum (map Rsqr a) - 2 * c * np_sum a + INR (List.length a) * c * c.
Proof.
  induction a as [| v a IH].
  - simpl. lra.
  - cbn [map np_sum fold_right List.length].
    fold (np_sum (map (fun v => Rsqr (Rabs (v - c))) a)).
    fold (np_sum (map Rsqr a)). fold (np_sum a).
    rewrite IH, S_INR, <- Rsqr_abs. unfold Rsqr. lra.
Qed.

Lemma np_sum_squares_bound (a : list R) (B : R) :
  Forall (fun v => Rabs v <= B) a ->
  np_sum (map Rsqr a) <= INR (List.length a) * B * B.
Proof.
  induction 1 as [| v a Hv _ IH].
  - simpl. lra.
  - cbn [map np_sum fold_right List.length]. fold (np_sum (map Rsqr a)).
    rewrite S_INR.
    assert (Rsqr v <= B * B) as Hsq.
    { rewrite (Rsqr_abs v). unfold Rsqr. pose proof (Rabs_pos v). nra. }
    lra.
Qed.

(** The standard deviation of numbers of absolute value at most [B] is at
    most [B]. *)
Lemma np_std_bounded (a : list R) (B : R) :
  0 <= B -> Forall (fun v => Rabs v <= B) a -> np_std a <= B.
Proof.
  intros HB Hall. unfold np_std.
  rewrite <- (sqrt_Rsqr B HB). apply sqrt_le_1_alt.
  unfold np_mean at 1. rewrite length_map, np_sum_squares_shift.
  pose proof (np_sum_squares_bound a B Hall) as Hsq.
  destruct a as [| v0 a0] eqn:Ea.
  - simpl. unfold Rdiv, Rsqr. nra.
  - rewrite <- Ea in *.
    assert (0 < INR (List.length a)) as Hn
        by (apply lt_0_INR; rewrite Ea; simpl; lia).
    assert (0 < / INR (List.length a)) as Hinv by (apply Rinv_0_lt_compat; lra).
    assert (INR (List.length a) * / INR (List.length a) = 1) as Hone
        by (apply Rinv_r; lra).
    set (n := INR (List.length a)) in *. set (S := np_sum a) in *.
    set (Q := np_sum (map Rsqr a)) in *.
    unfold np_mean. fold S. fold n.
    assert (Q - 2 * (S / n) * S + n * (S / n) * (S / n) = Q - S * S * / n) as ->
        by (unfold Rdiv; field; lra).
    assert (0 <= S * S * / n) as Hpos by (pose proof (Rle_0_sqr S); unfold Rsqr in *; nra).
    unfold Rsqr, Rdiv.
    assert ((Q - S * S * / n) * / n <= (n * B * B) * / n) as Hle
        by (apply Rmult_le_compat_r; lra).
    replace (n * B * B * / n) with (B * B) in Hle by (field; lra).
    exact Hle.
Qed.

Lemma _calculate_fwhm_bounded (self : SPECTSimulator) (positions : list R) (B : R) :
  0 <= B -> Forall (fun v => Rabs v <= B) positions ->
  0 <= _calculate_fwhm self positions <= 2.355 * B.
Proof.
  intros HB Hall. split; [apply _calculate_fwhm_nonneg |].
  unfold _calculate_fwhm. destruct (_ <? _)%nat; [lra |].
  pose proof (np_std_bounded positions B HB Hall). lra.
Qed.

Section SpreadFacts.

Variable rng : Type.
Variable random_sample : rng -> R * rng.
Variable standard_normal : rng -> R * rng.

Hypothesis random_sample_range : forall g, 0 <= fst (random_sample g) < 1.

(** X18: with a valid geometry and uniform draws in [0,1) the pipeline
    returns a spatial resolution that is at most 2.355 times the half
    width of the detector face extended by half a hole diameter. *)
Theorem spatial_resolution_bounded_by_face
    (self : SPECTSimulator) (N : Z) (d : R) (g : rng) :
  valid_geometry (self_params self) ->
  exists r g' m f,
    simulate_photon_transport rng random_sample standard_normal self N d g
    = inr (r, g')
    /\ calculate_metrics self r = inr m
    /\ dict_get m "spatial_resolution_fwhm" = Some f
    /\ 0 <= f <= 2.355 * (detector_width self / 2
                          + hole_diameter (self_params self) / 2).
Proof.
  intros Hv.
  destruct (simulate_then_metrics rng random_sample standard_normal self N d g Hv)
    as (r & g' & m & s & f & u & Hsim & Hm & _ & Hf & _ & _).
  exists r, g', m, f. split; [exact Hsim |]. split; [exact Hm |].
  split; [exact Hf |].
  pose proof Hv as (Hd & Hl & Hs & Hnx & Hny).
  assert (0 <= detector_width self / 2 + hole_diameter (self_params self) / 2) as HB.
  { unfold detector_width. apply IZR_lt in Hnx. nra. }
  unfold simulate_photon_transport in Hsim.
  destruct (run_trials rng random_sample standard_normal self (Z.to_nat N) acc_init g)
    as [e | [acc g1]] eqn:Hrun; [discriminate |].
  cbn [bind ret] in Hsim. injection Hsim as <- <-.
  pose proof (run_trials_photons_in_face rng random_sample standard_normal
                random_sample_range self _ _ _ _ Hv Hrun) as Hface.
  unfold calculate_metrics in Hm. cbn [detected_photons total_photons] in Hm.
  destruct (acc_detected_photons acc) as [| p ps] eqn:E.
  - cbn in Hm. injection Hm as <-. cbn in Hf. injection Hf as <-. lra.
  - cbn [List.length Nat.eqb] in Hm.
    destruct (pytruediv _ N) as [e | q]; [discriminate |]. cbn [bind] in Hm.
    destruct (pytruediv _ N) as [e | qs]; [discriminate |]. cbn [bind] in Hm.
    destruct (pytruediv _ N) as [e | qg]; [discriminate |]. cbn [bind ret] in Hm.
    injection Hm as <-. cbn [dict_get String.eqb Ascii.eqb Bool.eqb] in Hf.
    injection Hf as <-.
    apply _calculate_fwhm_bounded; [exact HB |].
    change (x p :: map x ps) with (map x (p :: ps)).
    rewrite Forall_map. eapply Forall_impl; [| exact Hface]. cbn. tauto.
Qed.

(** X19: a denser material absorbs whatever a lighter one absorbs: with the
    same valid geometry, angle and generator state, a photon septally
    absorbed under one attenuation coefficient is septally absorbed under
    every larger one. *)
Theorem larger_attenuation_absorbs_more
    (self1 self2 : SPECTSimulator) (theta phi x0 y0 : R) (g g' : rng) :
  valid_geometry (self_params self1) ->
  self_params self2 = self_params self1 ->
  attenuation_coefficient (self_material self1)
  <= attenuation_coefficient (self_material self2) ->
  trace_photon rng random_sample standard_normal self1 theta phi x0 y0 g
  = inr (SeptalAbsorption, g') ->
  trace_photon rng random_sample standard_normal self2 theta phi x0 y0 g
  = inr (SeptalAbsorption, g').
Proof.
  intros (Hd & Hl & Hs & _ & _) Hp Hmu Habs.
  rewrite (trace_photon_unfold rng random_sample standard_normal) in Habs by lra.
  rewrite (trace_photon_unfold rng random_sample standard_normal)
    by (rewrite Hp; lra).
  rewrite Hp. destruct (Rgt_dec _ _) as [_ | _]; [discriminate |].
  destruct (Rgt_dec _ _) as [Hgt | _]; [| discriminate].
  injection Habs as <-.
  assert (_calculate_septal_path self2 theta phi = _calculate_septal_path self1 theta phi)
    as Hpath by (unfold _calculate_septal_path; now rewrite Hp).
  rewrite Hpath.
  assert (0 <= _calculate_septal_path self1 theta phi) as Hpos.
  { unfold _calculate_septal_path. destruct (Rlt_dec _ _); [lra |].
    pose proof (Rabs_pos (tan theta)). nra. }
  set (path := _calculate_septal_path self1 theta phi) in *.
  assert (exp (- attenuation_coefficient (self_material self2) * path / 10)
          <= exp (- attenuation_coefficient (self_material self1) * path / 10)) as Hexp.
  { destruct (Req_dec_T (- attenuation_coefficient (self_material self2) * path / 10)
                (- attenuation_coefficient (self_material self1) * path / 10))
      as [-> | Hne]; [lra |].
    left. apply exp_increasing. nra. }
  destruct (Rgt_dec _ _) as [_ | Hn]; [reflexivity | exfalso; lra].
Qed.

End SpreadFacts.

(** X20: a simulator that [SPECTSimulator.__init__] constructs keeps the
    configuration it was given and carries the registry entry of its
    material name, whose density and attenuation coefficient are
    positive. *)
Theorem constructed_simulator_material (p : CollimatorParams) (sim : SPECTSimulator) :
  SPECTSimulator_init p = inr sim ->
  self_params sim = p
  /\ dict_get MATERIALS (material p) = Some (self_material sim)
  /\ 0 < density (self_material sim)
  /\ 0 < attenuation_coefficient (self_material sim).
Proof.
  unfold SPECTSimulator_init, MATERIALS. cbn [dict_get].
  destruct (String.eqb "lead" (material p));
    [| destruct (String.eqb "tungsten" (material p));
       [| destruct (String.eqb "brass" (material p)); [| discriminate]]];
    intros [= <-]; cbn; repeat split; lra.
Qed.

Lemma constructed_simulator_material_witness :
  self_params main_simulator = main_params
  /\ dict_get MATERIALS (material main_params) = Some (self_material main_simulator)
  /\ 0 < density (self_material main_simulator)
  /\ 0 < attenuation_coefficient (self_material main_simulator).
Proof.
  apply (constructed_simulator_material main_params main_simulator). reflexivity.
Defined.

Lemma spatial_resolution_bounded_by_face_witness :
  exists r g' m f,
    simulate_photon_transport TapeRng.rng TapeRng.random_sample TapeRng.standard_normal
      main_simulator 3 100.0 on_axis_tape = inr (r, g')
    /\ calculate_metrics main_simulator r = inr m
    /\ dict_get m "spatial_resolution_fwhm" = Some f
    /\ 0 <= f <= 2.355 * (detector_width main_simulator / 2
                          + hole_diameter (self_params main_simulator) / 2).
Proof.
  apply (spatial_resolution_bounded_by_face TapeRng.rng TapeRng.random_sample
           TapeRng.standard_normal tape_random_sample_range
           main_simulator 3 100.0 on_axis_tape).
  exact main_params_valid.
Defined.

(** Brass septa absorb the photon at a hundredth of a radian when the
    draw is 0.999999999. *)
Lemma brass_absorbs_oblique :
  trace_photon TapeRng.rng TapeRng.random_sample TapeRng.standard_normal
    brass_simulator 1e-2 0 0 0 near_one_tape
  = inr (SeptalAbsorption, []).
Proof.
  pose proof main_params_valid as (Hd & Hl & Hs & _ & _).
  rewrite trace_photon_unfold by (cbn [brass_simulator self_params]; lra).
  pose proof (main_acceptance_angle 1e-2 ltac:(lra) ltac:(lra)) as Hacc.
  cbn [brass_simulator self_params self_material attenuation_coefficient].
  destruct (Rgt_dec _ _) as [Hrej | _]; [exfalso; lra |].
  destruct (Rgt_dec _ _) as [_ | Hn]; [reflexivity |].
  exfalso. apply Hn. clear Hn.
  cbn [near_one_tape TapeRng.random_sample fst]. unfold TapeRng.unit_of.
  change (999999999 mod 1000000000)%Z with 999999999%Z.
  unfold _calculate_septal_path.
  cbn [brass_simulator self_params main_params CollimatorParams_new septal_thickness].
  rewrite (Rabs_pos_eq 1e-2) by lra.
  destruct (Rlt_dec 1e-2 1e-6) as [Habs | _]; [exfalso; lra |].
  rewrite (Rabs_pos_eq (tan 1e-2))
    by (left; apply tan_gt_0; [lra | pose proof PI2_1; lra]).
  pose proof (tan_lower 1e-2 ltac:(lra) ltac:(lra)) as Htan.
  set (t := tan 1e-2) in *.
  match goal with
  | |- _ > exp ?a => replace a with (- (0.16 * t)) by lra
  end.
  pose proof (exp_ineq1_le (0.16 * t)) as Hexp.
  pose proof (exp_pos (- (0.16 * t))) as Hpos.
  assert (exp (- (0.16 * t)) * exp (0.16 * t) = 1) as Hprod
      by (rewrite <- exp_plus; replace (- (0.16 * t) + 0.16 * t) with 0 by lra;
          apply exp_0).
  assert (9e-3 <= t) as Hlow by (simpl in Htan; lra).
  set (E := exp (- (0.16 * t))) in *.
  assert (E * (1 + 0.16 * t) <= 1) as Hone by nra.
  assert (E * (1 + 0.16 * 9e-3) <= E * (1 + 0.16 * t)) as Hmon by nra.
  lra.
Qed.

Lemma larger_attenuation_absorbs_more_witness :
  trace_photon TapeRng.rng TapeRng.random_sample TapeRng.standard_normal
    main_simulator 1e-2 0 0 0 near_one_tape
  = inr (SeptalAbsorption, []).
Proof.
  apply (larger_attenuation_absorbs_more TapeRng.rng TapeRng.random_sample
           TapeRng.standard_normal brass_simulator main_simulator
           1e-2 0 0 0 near_one_tape []).
  - exact main_params_valid.
  - reflexivity.
  - cbn. lra.
  - exact brass_absorbs_oblique.
Defined.

(** X21: on the metrics that [calculate_metrics] returns for a result,
    every entry that [visualize_results] reads for that result is present:
    it reads none when no photon was detected, which is when the septal
    penetration fraction and the geometric efficiency are missing, and all
    seven otherwise. *)
Theorem visualize_results_finds_its_metrics
    (self : SPECTSimulator) (r : SimulationResult) (m : Metrics) :
  calculate_metrics self r = inr m ->
  exists values,
    visualize_results_reads r m = inr values
    /\ (detected_photons r = [] -> values = [])
    /\ (detected_photons r <> [] -> List.length values = 7%nat).
Proof.
  intros Hm. unfold visualize_results_reads.
  destruct (detected_photons r) as [| p ps] eqn:E.
  - exists []. split; [reflexivity |]. split; [reflexivity | contradiction].
  - assert (detected_photons r <> []) as Hne by (rewrite E; discriminate).
    destruct (Z.eq_dec (total_photons r) 0) as [Hz | Hnz].
    + exfalso. unfold calculate_metrics in Hm. rewrite E, Hz in Hm. discriminate.
    + rewrite (calculate_metrics_counts self r Hne Hnz) in Hm. injection Hm as <-.
      cbn [List.length Nat.eqb]. dict_lookups.
      eexists. split; [reflexivity |]. split; [discriminate | reflexivity].
Qed.

Lemma visualize_results_finds_its_metrics_witness :
  exists m values,
    calculate_metrics main_simulator diagonal_result = inr m
    /\ visualize_results_reads diagonal_result m = inr values
    /\ (detected_photons diagonal_result = [] -> values = [])
    /\ (detected_photons diagonal_result <> [] -> List.length values = 7%nat).
Proof.
  eexists.
  destruct (visualize_results_finds_its_metrics main_simulator diagonal_result _
              eq_refl) as (values & Hv).
  exists values. split; [reflexivity | exact Hv].
Defined.

(** * Divisors of the positions and of the metrics *)

Lemma np_divide_defined (a b : R) : b <> 0 -> np_divide a b <> None.
Proof.
  intros Hb. unfold np_divide. destruct (Req_dec_T b 0); [contradiction | discriminate].
Qed.

Section DivisorFacts.

Variable rng : Type.
Variable random_sample : rng -> R * rng.
Variable standard_normal : rng -> R * rng.

Local Abbreviation trace := (trace_photon rng random_sample standard_normal).
Local Abbreviation trial := (photon_trial rng random_sample standard_normal).
Local Abbreviation simulate :=
  (simulate_photon_transport rng random_sample standard_normal).

Lemma trial_divides_by_positive_dz (self : SPECTSimulator) (g g' : rng) (ph : Photon) :
  trial self g = inr (Detected ph, g') -> divides_by_positive_dz self ph.
Proof.
  unfold photon_trial.
  destruct (sample_photon _ _ self g) as [[[[theta phi] x0] y0] g1]. intros Htrace.
  destruct (trace_photon_axial_cosine rng random_sample standard_normal
              self theta phi x0 y0 g1) as [_ Hout].
  destruct (Hout _ _ Htrace) as [_ Hdet].
  exists theta, phi, x0, y0. exact (Hdet ph eq_refl).
Qed.

(** C9: in every iteration that ends in an outcome, whatever the geometry,
    a photon whose axial direction cosine [dz = cos theta] is not positive
    is a geometric rejection, and a detected photon has [dz > 0] and its
    position is the pair of quotients by that [dz].  With a valid geometry
    every iteration ends in an outcome, and a run of any length returns a
    result in which every recorded photon has a position that is such a
    pair of quotients by a positive [dz]; [calculate_metrics] returns on
    that result, and none of its divisions has a zero divisor: the total
    is not zero when a photon is recorded, and from ten photons on the
    number of positions, the number of histogram cells and the mean cell
    count are not zero. *)
Theorem no_division_by_nonpositive
    (self : SPECTSimulator) (N : Z) (d : R) (g : rng) :
  (forall theta phi x0 y0 g0 o g',
      trace self theta phi x0 y0 g0 = inr (o, g') ->
      (cos theta <= 0 -> o = GeometricRejection /\ g' = g0)
      /\ (forall ph, o = Detected ph ->
          0 < cos theta
          /\ x ph = x0 + sin theta * cos phi * hole_length (self_params self) / cos theta
          /\ y ph = y0 + sin theta * sin phi * hole_length (self_params self) / cos theta))
  /\ (valid_geometry (self_params self) ->
      (forall theta phi x0 y0 g0, exists o g', trace self theta phi x0 y0 g0 = inr (o, g'))
      /\ exists r g' m,
           simulate self N d g = inr (r, g')
           /\ Forall (divides_by_positive_dz self) (detected_photons r)
           /\ calculate_metrics self r = inr m
           /\ (detected_photons r <> [] -> total_photons r <> 0%Z)
           /\ ((10 <= List.length (detected_photons r))%nat ->
               let xs := map x (detected_photons r) in
               let hist := List.concat (np_histogram2d xs (map y (detected_photons r)) 10) in
               np_divide (np_sum xs) (INR (List.length xs)) <> None
               /\ np_divide (np_sum hist) (INR (List.length hist)) <> None
               /\ np_divide (np_std hist) (np_mean hist) <> None)).
Proof.
  split.
  - intros theta phi x0 y0 g0 o g' Htrace.
    destruct (trace_photon_axial_cosine rng random_sample standard_normal
                self theta phi x0 y0 g0) as [_ Hout].
    exact (Hout o g' Htrace).
  - intros Hv. split.
    + intros theta phi x0 y0 g0.
      exact (trace_photon_total rng random_sample standard_normal
               self theta phi x0 y0 g0 Hv).
    + destruct (simulate_then_metrics rng random_sample standard_normal self N d g Hv)
        as (r & g' & m & _ & _ & _ & Hsim & Hm & _).
      exists r, g', m. split; [exact Hsim |].
      split; [| split; [exact Hm |]; split].
      * unfold simulate_photon_transport in Hsim.
        destruct (run_trials rng random_sample standard_normal self (Z.to_nat N)
                    acc_init g) as [e | [acc g1]] eqn:Hrun; [discriminate |].
        cbn [bind ret] in Hsim. injection Hsim as <- _. cbn [detected_photons].
        apply (run_trials_invariant rng random_sample standard_normal self
                 (fun o => forall ph, o = Detected ph -> divides_by_positive_dz self ph)
                 (fun a => Forall (divides_by_positive_dz self) (acc_detected_photons a)))
          with (n := Z.to_nat N) (acc := acc_init) (g := g) (g' := g1).
        -- intros g0 o g0' Ht ph ->. exact (trial_divides_by_positive_dz self g0 g0' ph Ht).
        -- intros a o Ha Ho. destruct o as [| | ph]; cbn; try assumption.
           apply Forall_app. split; [exact Ha |]. constructor; [| constructor].
           now apply Ho.
        -- exact Hrun.
        -- constructor.
      * intros Hne Hz. unfold calculate_metrics in Hm.
        destruct (detected_photons r) as [| p ps]; [contradiction |].
        rewrite Hz in Hm. discriminate.
      * intros Hten. cbv zeta.
        assert (detected_photons r <> []) as Hne
            by (destruct (detected_photons r); [simpl in Hten; lia | discriminate]).
        destruct (np_histogram2d_total (map x (detected_photons r))
                    (map y (detected_photons r)) 10 ltac:(lia)
                    ltac:(now rewrite !length_map)) as [Hcells _].
        pose proof (np_histogram2d_mean_pos (map x (detected_photons r))
                      (map y (detected_photons r)) 10 ltac:(lia)
                      ltac:(now rewrite !length_map)
                      ltac:(destruct (detected_photons r); [contradiction | discriminate]))
          as Hmean.
        split; [| split]; apply np_divide_defined.
        -- rewrite length_map. apply not_0_INR. lia.
        -- rewrite Hcells. apply not_0_INR. lia.
        -- lra.
Qed.

End DivisorFacts.

Lemma no_division_by_nonpositive_witness :
  cos PI <= 0
  /\ (exists g',
         trace_photon TapeRng.rng TapeRng.random_sample TapeRng.standard_normal
           main_simulator PI 0 0 0 near_one_tape
         = inr (GeometricRejection, g'))
  /\ exists r g' m,
       simulate_photon_transport TapeRng.rng TapeRng.random_sample TapeRng.standard_normal
         main_simulator 3 100.0 on_axis_tape = inr (r, g')
       /\ Forall (divides_by_positive_dz main_simulator) (detected_photons r)
       /\ calculate_metrics main_simulator r = inr m.
Proof.
  assert (cos PI <= 0) as Hcos by (rewrite cos_PI; lra).
  split; [exact Hcos |].
  pose proof (no_division_by_nonpositive
                TapeRng.rng TapeRng.random_sample TapeRng.standard_normal
                main_simulator 3 100.0 on_axis_tape) as [Hout Hrun].
  destruct (Hrun main_params_valid) as [Hret (r & g' & m & Hsim & Hpos & Hm & _)].
  split.
  - destruct (Hret PI 0 0 0 near_one_tape) as (o & g1 & Htrace).
    destruct (Hout _ _ _ _ _ _ _ Htrace) as [Hrej _].
    destruct (Hrej Hcos) as [-> _]. exists g1. exact Htrace.
  - exists r, g', m. auto.
Defined.
